(** * Interview-transcript coding pipeline (src/main.py)

    A shallow embedding of the five functions of [main.py] and the
    properties of its specification.

    - Python [str] values are sequences of Unicode code points: [str] is
      [list N].  [str.split], [str.join], [str.strip], [str.endswith] and the
      three regular expressions of the speaker filter are written out over
      code points, with Python's Unicode notion of whitespace and of
      case-insensitive literal matching.
    - The script's collaborators (the file system, python-docx, polars, the
      chat endpoint, [json.loads]) are the fields of an environment record;
      every call to one of them is logged in a trace that survives an
      exception, so that "before any model call" and "no output file" are
      statements about traces. *)

From Stdlib Require Import Ascii String DecimalString NArith ZArith Lia Bool List.
Import ListNotations.

Set Implicit Arguments.
Set Warnings "-register-all".

(* ================================================================== *)
(** * Python strings *)
(* ================================================================== *)

Module PyStr.

(** A character is its code point. *)
Definition char := N.
Definition str := list char.

(** ASCII literals of the source, as code points. *)
Definition py (s : string) : str := map N_of_ascii (list_ascii_of_string s).

Definition nl : char := 10%N.

Definition str_eqb (a b : str) : bool :=
  if list_eq_dec N.eq_dec a b then true else false.

(** [s.split(sep)] for the one-character separator the script uses. *)
Fixpoint split (sep : char) (s : str) : list str :=
  match s with
  | [] => [[]]
  | c :: s' =>
      if N.eqb c sep then [] :: split sep s'
      else match split sep s' with
           | l :: ls => (c :: l) :: ls
           | [] => [[c]]
           end
  end.

(** [sep.join(parts)]. *)
Fixpoint join (sep : str) (parts : list str) : str :=
  match parts with
  | [] => []
  | [p] => p
  | p :: ps => p ++ sep ++ join sep ps
  end.

(** [Py_UNICODE_ISSPACE]: the code points [str.strip()] removes and the
    regular-expression class [\s] matches on a [str] pattern. *)
Definition whitespace : list char :=
  [9; 10; 11; 12; 13; 28; 29; 30; 31; 32; 133; 160; 5760;
   8192; 8193; 8194; 8195; 8196; 8197; 8198; 8199; 8200; 8201; 8202;
   8232; 8233; 8239; 8287; 12288]%N.

Definition isspace (c : char) : bool := existsb (N.eqb c) whitespace.

Fixpoint lstrip (s : str) : str :=
  match s with
  | c :: s' => if isspace c then lstrip s' else s
  | [] => []
  end.

Definition rstrip (s : str) : str := rev (lstrip (rev s)).

(** [s.strip()]. *)
Definition strip (s : str) : str := rstrip (lstrip s).

(** [s.endswith(suffix)]. *)
Fixpoint startswith (s prefix : str) : bool :=
  match prefix, s with
  | [], _ => true
  | p :: prefix', c :: s' => N.eqb c p && startswith s' prefix'
  | _ :: _, [] => false
  end.

Definition endswith (s suffix : str) : bool := startswith (rev s) (rev suffix).

End PyStr.
Import PyStr.

(* ================================================================== *)
(** * The regular expressions of the speaker filter *)
(* ================================================================== *)

Module Re.

(** [Py_UNICODE_TOLOWER] on the code points whose image is a letter of the
    script's patterns or one of its case equivalents: the ASCII capitals,
    U+0130 (capital I with dot above, lowered to [i]) and U+212A (Kelvin
    sign, lowered to [k]).  Every other code point is left alone here; none
    of them lowers to an ASCII letter, U+0131 or U+017F, so literal matching
    against the patterns' letters is unaffected. *)
Definition tolower (c : char) : char :=
  if (65 <=? c)%N && (c <=? 90)%N then (c + 32)%N
  else if N.eqb c 304 then 105%N
  else if N.eqb c 8490 then 107%N
  else c.

(** The entries of [sre_compile]'s table of extra case equivalents that
    concern ASCII letters: [i] with dotless i (U+0131), [s] with long s
    (U+017F). *)
Definition ignorecase_fixes (c : char) : list char :=
  if N.eqb c 105 then [305%N]
  else if N.eqb c 115 then [383%N]
  else [].

(** One pattern item consuming one character. *)
Inductive atom :=
| Lit (c : char)          (* a lower-case literal compiled under (?i) *)
| Space                   (* \s *)
| OneOf (cs : list char). (* [...] of uncased characters *)

Definition atom_match (a : atom) (x : char) : bool :=
  match a with
  | Lit c =>
      let lo := tolower x in
      N.eqb lo c || existsb (N.eqb lo) (ignorecase_fixes c)
  | Space => isspace x
  | OneOf cs => existsb (N.eqb x) cs
  end.

Inductive regex :=
| Eps
| Atom (a : atom)
| Many (a : atom)           (* a*, greedy *)
| Cat (r1 r2 : regex)
| Alt (r1 r2 : regex).

(** Greedy repetition with backtracking: the longest run first, then
    shorter ones while the rest of the pattern fails. *)
Fixpoint many {A} (a : atom) (s : str) (k : str -> option A) : option A :=
  match s with
  | x :: s' =>
      if atom_match a x then
        match many a s' k with
        | Some r => Some r
        | None => k s
        end
      else k s
  | [] => k []
  end.

(** The backtracking matcher: [exec r s k] matches [r] at the head of [s]
    and hands the unconsumed rest to the continuation [k]; alternatives are
    tried left to right. *)
Fixpoint exec {A} (r : regex) (s : str) (k : str -> option A) : option A :=
  match r with
  | Eps => k s
  | Atom a =>
      match s with
      | x :: s' => if atom_match a x then k s' else None
      | [] => None
      end
  | Many a => many a s k
  | Cat r1 r2 => exec r1 s (fun s1 => exec r2 s1 k)
  | Alt r1 r2 =>
      match exec r1 s k with
      | Some x => Some x
      | None => exec r2 s k
      end
  end.

(** [re.match(r, s)] for a pattern anchored with [^]: the rest of [s] after
    the match, if there is one. *)
Definition re_match (r : regex) (s : str) : option str := exec r s (@Some str).

(** [re.sub(r, repl, s)] for a pattern anchored with [^] that cannot match
    the empty string: only a match at index 0 is replaced. *)
Definition re_sub (r : regex) (repl s : str) : str :=
  match re_match r s with
  | Some rest => repl ++ rest
  | None => s
  end.

(** A literal word, and an alternation [(w1|w2|...)]. *)
Definition word (w : str) : regex := fold_right (fun c r => Cat (Atom (Lit c)) r) Eps w.

Fixpoint alts (ws : list str) : regex :=
  match ws with
  | [] => Atom (OneOf [])
  | [w] => word w
  | w :: ws' => Alt (word w) (alts ws')
  end.

End Re.
Import Re.

(* ================================================================== *)
(** * 2. Remove interviewer lines *)
(* ================================================================== *)

Definition interviewee_labels : list str :=
  [py "participant"; py "interviewee"; py "p"; py "resp"; py "r"].

Definition interviewer_labels : list str :=
  [py "interviewer"; py "int"; py "i"].

Definition delimiter : atom := OneOf (py ":-").

(** [(?i)^(participant|interviewee|p|resp|r)\s*[:\-]] *)
Definition interviewee_re : regex :=
  Cat (alts interviewee_labels) (Cat (Many Space) (Atom delimiter)).

(** [(?i)^(participant|interviewee|p|resp|r)\s*[:\-]\s*] *)
Definition interviewee_prefix_re : regex :=
  Cat (alts interviewee_labels) (Cat (Many Space) (Cat (Atom delimiter) (Many Space))).

(** [(?i)^(interviewer|int|i)\s*[:\-]] *)
Definition interviewer_re : regex :=
  Cat (alts interviewer_labels) (Cat (Many Space) (Atom delimiter)).

Definition is_some {A} (o : option A) : bool :=
  match o with Some _ => true | None => false end.

(** One iteration of the loop over the lines: the new value of
    [cleaned_lines]. *)
Definition filter_step (cleaned_lines : list str) (line : str) : list str :=
  let line := strip line in
  match line with
  | [] => cleaned_lines
  | _ :: _ =>
      if is_some (re_match interviewee_re line) then
        cleaned_lines ++ [re_sub interviewee_prefix_re [] line]
      else if is_some (re_match interviewer_re line) then
        cleaned_lines
      else
        cleaned_lines
  end.

Definition extract_interviewee_text (full_text : str) : str :=
  join [nl] (fold_left filter_step (split nl full_text) []).

(* ================================================================== *)
(** * Paths ([posixpath]) *)
(* ================================================================== *)

Module Path.

Definition sep : char := 47%N.     (* / *)
Definition extsep : char := 46%N.  (* . *)

(** [os.path.join(a, b)]. *)
Definition join (a b : str) : str :=
  if startswith b [sep] then b
  else match a with
       | [] => b
       | _ :: _ => if endswith a [sep] then a ++ b else a ++ [sep] ++ b
       end.

(** [s.rfind(c)]: the highest index of [c] in [s], or -1. *)
Fixpoint rfind_from (c : char) (s : str) (i : Z) (found : Z) : Z :=
  match s with
  | [] => found
  | x :: s' => rfind_from c s' (i + 1)%Z (if N.eqb x c then i else found)
  end.

Definition rfind (c : char) (s : str) : Z := rfind_from c s 0%Z (-1)%Z.

(** [s[i:j]] for [0 <= i]. *)
Definition slice (s : str) (i j : Z) : str :=
  firstn (Z.to_nat (j - i)) (skipn (Z.to_nat i) s).

(** [os.path.splitext(p)]: the extension starts at the last dot of the last
    component, unless that component has only dots before it. *)
Definition splitext (p : str) : str * str :=
  let sepIndex := rfind sep p in
  let dotIndex := rfind extsep p in
  if (sepIndex <? dotIndex)%Z then
    (* skip all leading dots *)
    if forallb (N.eqb extsep) (slice p (sepIndex + 1) dotIndex)
    then (p, [])
    else (slice p 0 dotIndex, skipn (Z.to_nat dotIndex) p)
  else (p, []).

End Path.

(* ================================================================== *)
(** * Tables, JSON values, exceptions *)
(* ================================================================== *)

(** A polars frame: named columns and rows of cells. *)
Record DataFrame (V : Type) : Type := mkFrame {
  columns : list str;
  rows : list (list V)
}.

(** [df.iter_rows(named=True)]: each row as a mapping from column name to
    cell. *)
Definition iter_rows {V} (df : DataFrame V) : list (list (str * V)) :=
  map (combine (columns df)) (rows df).

Definition height {V} (df : DataFrame V) : nat := length (rows df).

(** A cell of a codebook table read from disk. *)
Inductive cell :=
| CStr (s : str)
| CInt (z : Z)
| CBool (b : bool)
| CNull
| COther (text : str).   (* any other value, carried with the text [str()] gives *)

Definition decimal (z : Z) : str :=
  py (NilZero.string_of_int (Z.to_int z)).

(** What an f-string field [{v}] renders for a cell. *)
Definition format (v : cell) : str :=
  match v with
  | CStr s => s
  | CInt z => decimal z
  | CBool true => py "True"
  | CBool false => py "False"
  | CNull => py "None"
  | COther text => text
  end.

(** What [json.loads] returns. *)
Inductive json :=
| JNull
| JBool (b : bool)
| JInt (z : Z)
| JFloat (repr : str)
| JStr (s : str)
| JArr (items : list json)
| JObj (fields : list (str * json)).

Inductive exn :=
| ValueError (msg : str)
| KeyError (key : str)
| JSONDecodeError
| External (what : str).   (* raised inside a collaborator: OSError, ... *)

Inductive result (A : Type) : Type :=
| Ok (a : A)
| Raise (e : exn).
Arguments Ok {A} a.
Arguments Raise {A} e.

(* ================================================================== *)
(** * Collaborators and the trace of calls *)
(* ================================================================== *)

Inductive event :=
| Makedirs (path : str)
| ReadExcel (path : str)
| ReadCsv (path : str)
| Listdir (path : str)
| Print (text : str)
| Open (path : str)
| Document (path : str)
| Chat (model : str) (messages : list (str * str))
| WriteCsv (path : str) (df : DataFrame json).

Definition trace := list event.

(** The world outside the script.  Each collaborator answers from the calls
    made so far and its arguments, so the world may change while the script
    runs. *)
Record Env : Type := mkEnv {
  (* open(path, "r", encoding="utf-8").read() *)
  open_read : trace -> str -> result str;
  (* [p.text for p in Document(path).paragraphs] *)
  docx_paragraphs : trace -> str -> result (list str);
  read_excel : trace -> str -> result (DataFrame cell);
  read_csv : trace -> str -> result (DataFrame cell);
  (* os.makedirs(path, exist_ok=True) *)
  makedirs : trace -> str -> result unit;
  listdir : trace -> str -> result (list str);
  (* chat(model=..., messages=...)["message"]["content"] *)
  chat : trace -> str -> list (str * str) -> result str;
  (* json.loads; None stands for JSONDecodeError *)
  json_loads : str -> option json;
  (* pl.DataFrame(data) on data other than a list of flat text records *)
  frame_other : json -> result (DataFrame json);
  write_csv : trace -> str -> DataFrame json -> result unit
}.

(** Computations that call collaborators and may raise: the trace is kept
    when an exception propagates. *)
Definition M (A : Type) : Type := trace -> result A * trace.

Definition ret {A} (a : A) : M A := fun tr => (Ok a, tr).

Definition bind {A B} (m : M A) (f : A -> M B) : M B :=
  fun tr =>
    match m tr with
    | (Ok a, tr') => f a tr'
    | (Raise e, tr') => (Raise e, tr')
    end.

Definition raise {A} (e : exn) : M A := fun tr => (Raise e, tr).

Definition call {A} (ev : event) (f : trace -> result A) : M A :=
  fun tr => (f tr, tr ++ [ev]).

Definition lift {A} (r : result A) : M A := fun tr => (r, tr).

Declare Scope py_scope.
Delimit Scope py_scope with py.
Notation "x <- m ;; k" := (bind m (fun x => k))
  (at level 61, m at next level, right associativity) : py_scope.
Notation "m ;; k" := (bind m (fun _ => k))
  (at level 61, right associativity) : py_scope.
Open Scope py_scope.

(** [for x in xs: body(x)]. *)
Fixpoint for_each {A} (xs : list A) (body : A -> M unit) : M unit :=
  match xs with
  | [] => ret tt
  | x :: xs' => body x ;; for_each xs' body
  end.

(** [for x in xs: acc = body(acc, x)]. *)
Fixpoint for_fold {A B} (xs : list A) (acc : B) (body : B -> A -> M B) : M B :=
  match xs with
  | [] => ret acc
  | x :: xs' => acc' <- body acc x ;; for_fold xs' acc' body
  end.

(** [row[key]] on a row mapping. *)
Fixpoint getitem {V} (row : list (str * V)) (key : str) : result V :=
  match row with
  | [] => Raise (KeyError key)
  | (k, v) :: row' => if str_eqb k key then Ok v else getitem row' key
  end.

(** [pl.DataFrame(data)] where [data] is a list of flat records of text: the
    columns are the first record's keys, and every record gives one row,
    its values looked up by column name. *)
Definition text_record (cols : list str) (item : json) : option (list json) :=
  match item with
  | JObj fields =>
      if forallb (fun kv => match snd kv with JStr _ => true | _ => false end) fields
         && Nat.eqb (length fields) (length cols)
      then
        fold_right
          (fun c acc =>
             match getitem fields c, acc with
             | Ok v, Some vs => Some (v :: vs)
             | _, _ => None
             end)
          (Some []) cols
      else None
  | _ => None
  end.

Fixpoint text_records (cols : list str) (items : list json) : option (list (list json)) :=
  match items with
  | [] => Some []
  | item :: items' =>
      match text_record cols item, text_records cols items' with
      | Some r, Some rs => Some (r :: rs)
      | _, _ => None
      end
  end.

Fixpoint nodupb (ks : list str) : bool :=
  match ks with
  | [] => true
  | k :: ks' => negb (existsb (str_eqb k) ks') && nodupb ks'
  end.

Definition records_frame (items : list json) : option (DataFrame json) :=
  match items with
  | [] => Some (mkFrame [] [])
  | JObj fields :: _ =>
      let cols := map fst fields in
      match cols with
      | [] => None
      | _ :: _ =>
          if nodupb cols then
            match text_records cols items with
            | Some rs => Some (mkFrame cols rs)
            | None => None
            end
          else None
      end
  | _ => None
  end.

(* ================================================================== *)
(** * The script *)
(* ================================================================== *)

Section Script.

Variable env : Env.

(** ** 1. Load transcript files (.txt or .docx) *)

Definition load_transcript (path : str) : M str :=
  if endswith path (py ".txt") then
    call (Open path) (fun h => open_read env h path)
  else if endswith path (py ".docx") then
    paragraphs <- call (Document path) (fun h => docx_paragraphs env h path) ;;
    ret (join [nl] paragraphs)
  else
    raise (ValueError (py "Unsupported file format: " ++ path)).

(** ** 3. Load themes sheet *)

Definition theme_line (lines : list str) (row : list (str * cell)) : M (list str) :=
  code <- lift (getitem row (py "code")) ;;
  definition <- lift (getitem row (py "definition")) ;;
  ret (lines ++ [py "- " ++ format code ++ py ": " ++ format definition]).

Definition load_themes (theme_path : str) : M str :=
  df <- (if endswith theme_path (py ".xlsx")
         then call (ReadExcel theme_path) (fun h => read_excel env h theme_path)
         else call (ReadCsv theme_path) (fun h => read_csv env h theme_path)) ;;
  lines <- for_fold (iter_rows df) [] theme_line ;;
  ret (join [nl] lines).

(** ** 4. Code transcript using themes *)

Definition quot : char := 34%N.
Definition en_dash : char := 8211%N.
Definition arrow : char := 8594%N.

Definition system_prompt (theme_prompt : str) : str :=
  [nl]
  ++ py "You are a qualitative analysis assistant. You will extract quotes from the transcript" ++ [nl]
  ++ py "and assign theme codes." ++ [nl]
  ++ [nl]
  ++ py "RULES:" ++ [nl]
  ++ py "- Cover 100% of interviewee content." ++ [nl]
  ++ py "- Each sentence must appear in exactly one quote." ++ [nl]
  ++ py "- A quote can contain 1" ++ [en_dash]
  ++ py "many sentences if they express the same theme." ++ [nl]
  ++ py "- Do NOT omit or combine unrelated content." ++ [nl]
  ++ py "- Do NOT include any interviewer lines." ++ [nl]
  ++ py "- Return valid JSON only: list of {" ++ [quot] ++ py "quote" ++ [quot]
  ++ py ", " ++ [quot] ++ py "theme" ++ [quot]
  ++ py ", " ++ [quot] ++ py "explanation" ++ [quot] ++ py "}." ++ [nl]
  ++ [nl]
  ++ py "THEMES:" ++ [nl]
  ++ theme_prompt ++ [nl].

Definition user_prompt (text : str) : str :=
  py "Here is the full interviewee-only transcript:" ++ [nl; nl] ++ text ++ [nl; nl]
  ++ py "Extract all theme-coded quotes now.".

Definition messages (text theme_prompt : str) : list (str * str) :=
  [(py "system", system_prompt theme_prompt); (py "user", user_prompt text)].

Definition code_transcript_with_themes (text theme_prompt : str) : M json :=
  let msgs := messages text theme_prompt in
  content <- call (Chat (py "mistral") msgs) (fun h => chat env h (py "mistral") msgs) ;;
  let cleaned := strip content in
  match json_loads env cleaned with
  | Some v => ret v
  | None => raise JSONDecodeError
  end.

(** ** 5. Process each transcript: 1 CSV per transcript *)

(** [pl.DataFrame(coded_items)]. *)
Definition new_frame (coded_items : json) : M (DataFrame json) :=
  match coded_items with
  | JArr items =>
      match records_frame items with
      | Some df => ret df
      | None => lift (frame_other env coded_items)
      end
  | _ => lift (frame_other env coded_items)
  end.

Definition supported (filename : str) : bool :=
  endswith filename (py ".txt") || endswith filename (py ".docx").

Definition out_name (filename : str) : str :=
  py "coded_" ++ fst (Path.splitext filename) ++ py ".csv".

(** The body of the loop over the directory entries. *)
Definition process_entry (transcript_dir theme_prompt output_dir filename : str) : M unit :=
  if negb (supported filename) then ret tt
  else
    call (Print ([nl] ++ py "=== Processing " ++ filename ++ py " ===")) (fun _ => Ok tt) ;;
    let full_path := Path.join transcript_dir filename in
    raw <- load_transcript full_path ;;
    let participant_text := extract_interviewee_text raw in
    coded_items <- code_transcript_with_themes participant_text theme_prompt ;;
    df <- new_frame coded_items ;;
    let out_path := Path.join output_dir (out_name filename) in
    call (WriteCsv out_path df) (fun h => write_csv env h out_path df) ;;
    call (Print (py "Saved " ++ [arrow] ++ py " " ++ out_path)) (fun _ => Ok tt).

Definition process_folder (transcript_dir theme_path output_dir : str) : M unit :=
  call (Makedirs output_dir) (fun h => makedirs env h output_dir) ;;
  theme_prompt <- load_themes theme_path ;;
  entries <- call (Listdir transcript_dir) (fun h => listdir env h transcript_dir) ;;
  for_each entries (process_entry transcript_dir theme_prompt output_dir).

(** ** 6. Run *)

Definition main : M unit :=
  process_folder (py "transcripts") (py "themes.xlsx") (py "coded_output").

End Script.

(** What a run leaves behind. *)
Fixpoint writes (tr : trace) : list (str * DataFrame json) :=
  match tr with
  | [] => []
  | WriteCsv path df :: tr' => (path, df) :: writes tr'
  | _ :: tr' => writes tr'
  end.

Definition is_chat (ev : event) : bool :=
  match ev with Chat _ _ => true | _ => false end.

Fixpoint distinct (ps : list str) : list str :=
  match ps with
  | [] => []
  | p :: ps' => if existsb (str_eqb p) ps' then distinct ps' else p :: distinct ps'
  end.

(** The files of the output directory after a run that started with none:
    the distinct paths written. *)
Definition output_files (tr : trace) : list str := distinct (map fst (writes tr)).

(* ================================================================== *)
(** * Reading the matcher as a function on lines *)
(* ================================================================== *)

(** The definitions below are not part of the script: they describe what
    its three patterns compute, and the lemmas after them prove it from
    the backtracking matcher. *)

(** Drop the longest run of characters matching [a]. *)
Fixpoint skip (a : atom) (s : str) : str :=
  match s with
  | x :: s' => if atom_match a x then skip a s' else s
  | [] => []
  end.

(** Remove the word [w] from the head of [s], letter by letter under (?i). *)
Fixpoint ci_prefix (w s : str) : option str :=
  match w with
  | [] => Some s
  | c :: w' =>
      match s with
      | x :: s' => if atom_match (Lit c) x then ci_prefix w' s' else None
      | [] => None
      end
  end.

(** After the label: optional whitespace, then a colon or a hyphen. *)
Definition after_label (r : str) : option str :=
  match lstrip r with
  | d :: r' => if atom_match delimiter d then Some r' else None
  | [] => None
  end.

Definition label_then_delimiter (w s : str) : option str :=
  match ci_prefix w s with
  | Some r => after_label r
  | None => None
  end.

(** The first label of the list that, followed by a delimiter, starts [s];
    the result is what follows the delimiter. *)
Fixpoint label_match (labels : list str) (s : str) : option str :=
  match labels with
  | [] => None
  | w :: labels' =>
      match label_then_delimiter w s with
      | Some r => Some r
      | None => label_match labels' s
      end
  end.

(** What one line adds to the output, if anything. *)
Definition keep (line : str) : option str :=
  match strip line with
  | [] => None
  | (_ :: _) as l =>
      match label_match interviewee_labels l with
      | Some r => Some (lstrip r)
      | None => None
      end
  end.

Fixpoint kept (lines : list str) : list str :=
  match lines with
  | [] => []
  | l :: lines' =>
      match keep l with
      | Some r => r :: kept lines'
      | None => kept lines'
      end
  end.

(** Every non-empty line of a text carries a speaker label. *)
Definition labeled_line (line : str) : bool :=
  match strip line with
  | [] => true
  | (_ :: _) as l =>
      is_some (re_match interviewee_re l) || is_some (re_match interviewer_re l)
  end.

Definition all_labeled (text : str) : bool := forallb labeled_line (split nl text).

(** The letters of the patterns, and what makes a label. *)
Definition lower_ascii (c : char) : Prop := (97 <= c <= 122)%N.

Definition label (w : str) : Prop := w <> [] /\ Forall lower_ascii w.

(** [w] spells the label [lab] in some mix of cases. *)
Definition spells (lab w : str) : Prop :=
  Forall2 (fun c x => atom_match (Lit c) x = true) lab w.

(** A line is blank, or an interviewer label starts it (as it stands or
    once stripped). *)
Definition blank_or_interviewer (line : str) : bool :=
  match strip line with
  | [] => true
  | _ :: _ =>
      is_some (re_match interviewer_re line)
      || is_some (re_match interviewer_re (strip line))
  end.

(** A non-empty line that matches neither pattern. *)
Definition unlabeled (line : str) : bool :=
  match strip line with
  | [] => false
  | (_ :: _) as l =>
      negb (is_some (re_match interviewee_re l))
      && negb (is_some (re_match interviewer_re l))
  end.

(** A string that holds no newline: one line of a text. *)
Definition single_line (l : str) : bool := negb (existsb (N.eqb nl) l).

(** A line that is an interviewee label, optional whitespace and a
    delimiter, with nothing after it. *)
Definition label_only (line : str) : Prop :=
  exists lab w ws d,
    In lab interviewee_labels /\ spells lab w
    /\ Forall (fun c => isspace c = true) ws
    /\ atom_match delimiter d = true
    /\ strip line = w ++ ws ++ [d].

(* ------------------------------------------------------------------ *)
(** ** Vocabulary for the statements about files and tables *)

(** The reader [load_themes] picks for a path, and the call it logs. *)
Definition table_at (env : Env) (h : trace) (theme_path : str) : result (DataFrame cell) :=
  if endswith theme_path (py ".xlsx") then read_excel env h theme_path
  else read_csv env h theme_path.

Definition read_event (theme_path : str) : event :=
  if endswith theme_path (py ".xlsx") then ReadExcel theme_path else ReadCsv theme_path.

(** A codebook row with its two fields. *)
Definition theme_row (row : list (str * cell)) (entry : cell * cell) : Prop :=
  getitem row (py "code") = Ok (fst entry)
  /\ getitem row (py "definition") = Ok (snd entry).

Definition bullet (entry : cell * cell) : str :=
  py "- " ++ format (fst entry) ++ py ": " ++ format (snd entry).

(** A coded quote: the three texts the model is asked for. *)
Record CodedQuote : Type := mkQuote {
  quote : str;
  theme : str;
  explanation : str
}.

(** A JSON object with exactly the fields [quote], [theme], [explanation],
    in any order, each a string. *)
Definition coded_quote (item : json) (q : CodedQuote) : Prop :=
  exists fields,
    item = JObj fields /\ length fields = 3
    /\ getitem fields (py "quote") = Ok (JStr (quote q))
    /\ getitem fields (py "theme") = Ok (JStr (theme q))
    /\ getitem fields (py "explanation") = Ok (JStr (explanation q)).

(** A row of the output table holding a coded quote. *)
Definition quote_row (row : list (str * json)) (q : CodedQuote) : Prop :=
  length row = 3
  /\ getitem row (py "quote") = Ok (JStr (quote q))
  /\ getitem row (py "theme") = Ok (JStr (theme q))
  /\ getitem row (py "explanation") = Ok (JStr (explanation q)).

(** A small world for concrete runs: every text file reads "P: hello",
    every document has the two paragraphs below, both table readers return
    [table], the directory lists [entries], the model answers [reply], and
    [json.loads] parses the stripped reply to [parsed] and nothing else. *)
Definition demo_env (table : result (DataFrame cell)) (entries : list str)
    (reply : str) (parsed : option json) : Env :=
  {| open_read := fun _ _ => Ok (py "P: hello");
     docx_paragraphs := fun _ _ => Ok [py "Interviewer: hi"; py "R: fine"];
     read_excel := fun _ _ => table;
     read_csv := fun _ _ => table;
     makedirs := fun _ _ => Ok tt;
     listdir := fun _ _ => Ok entries;
     chat := fun _ _ _ => Ok reply;
     json_loads := fun s => if str_eqb s (strip reply) then parsed else None;
     frame_other := fun _ => Raise (External (py "polars"));
     write_csv := fun _ _ _ => Ok tt |}.

Definition demo_codebook : DataFrame cell :=
  mkFrame [py "code"; py "definition"]
          [[CStr (py "A"); CStr (py "foo")]; [CStr (py "B"); CStr (py "bar")]].

(** A table with a header and no rows, and without the codebook's columns. *)
Definition headers_only : DataFrame cell :=
  mkFrame [py "name"; py "description"] [].

(** A one-row table whose first column is misnamed. *)
Definition misnamed_codebook : DataFrame cell :=
  mkFrame [py "name"; py "definition"] [[CStr (py "A"); CStr (py "foo")]].

Definition is_text (v : json) : bool :=
  match v with JStr _ => true | _ => false end.

Definition quote_keys : list str := [py "quote"; py "theme"; py "explanation"].

Definition demo_item (q t e : str) : json :=
  JObj [(py "quote", JStr q); (py "theme", JStr t); (py "explanation", JStr e)].

Definition demo_reply : json :=
  JArr [demo_item (py "hello") (py "A") (py "greeting")].

(** The text of [demo_reply], as the model sends it. *)
Definition demo_reply_text : str :=
  [nl] ++ py "[{" ++ [quot] ++ py "quote" ++ [quot] ++ py ": " ++ [quot] ++ py "hello" ++ [quot]
  ++ py ", " ++ [quot] ++ py "theme" ++ [quot] ++ py ": " ++ [quot] ++ py "A" ++ [quot]
  ++ py ", " ++ [quot] ++ py "explanation" ++ [quot] ++ py ": " ++ [quot] ++ py "greeting"
  ++ [quot] ++ py "}]" ++ [nl].

(* ------------------------------------------------------------------ *)
(** ** Vocabulary for the further properties *)

Definition spaces (ws : str) : Prop := Forall (fun c => isspace c = true) ws.

(** The stripped line is a spelled interviewee label, whitespace, a
    delimiter and then [content]. *)
Definition interviewee_line (line content : str) : Prop :=
  exists lab w ws d,
    In lab interviewee_labels /\ spells lab w /\ spaces ws
    /\ atom_match delimiter d = true
    /\ strip line = w ++ ws ++ d :: content.

Definition cr : char := 13%N.

(** The prefix [os.path.join] puts before a relative name. *)
Definition dir_prefix (dir : str) : str :=
  match dir with
  | [] => []
  | _ :: _ => if endswith dir [Path.sep] then dir else dir ++ [Path.sep]
  end.

(** The calls one directory entry may cause: progress lines, the load of a
    listed transcript, a chat carrying the codebook text, the write of the
    entry's output. *)
Definition entry_event (transcript_dir theme_prompt output_dir : str)
    (entries : list str) (ev : event) : Prop :=
  match ev with
  | Print _ => True
  | Open path | Document path =>
      exists f, In f entries /\ supported f = true /\ path = Path.join transcript_dir f
  | Chat model msgs =>
      model = py "mistral" /\ exists text, msgs = messages text theme_prompt
  | WriteCsv path _ =>
      exists f, In f entries /\ supported f = true
                /\ path = Path.join output_dir (out_name f)
  | Makedirs _ | ReadExcel _ | ReadCsv _ | Listdir _ => False
  end.

(** A computation that only adds events satisfying [P] to the trace,
    whatever its outcome. *)
Definition emits {A} (P : event -> Prop) (m : M A) : Prop :=
  forall h, exists new, snd (m h) = h ++ new /\ Forall P new.

Fixpoint chats (tr : trace) : list (list (str * str)) :=
  match tr with
  | [] => []
  | Chat _ msgs :: tr' => msgs :: chats tr'
  | _ :: tr' => chats tr'
  end.

(* ------------------------------------------------------------------ *)
(** ** Strings *)

Lemma split_nonempty sep s : split sep s <> [].
Proof.
  destruct s as [|c s]; simpl; [discriminate|].
  destruct (N.eqb c sep); [discriminate|].
  destruct (split sep s); discriminate.
Qed.

Lemma split_app sep a b :
  split sep (a ++ sep :: b) = split sep a ++ split sep b.
Proof.
  induction a as [|c a IH]; simpl.
  - rewrite N.eqb_refl. reflexivity.
  - destruct (N.eqb c sep); [rewrite IH; reflexivity|].
    rewrite IH. destruct (split sep a) eqn:E; [|reflexivity].
    exfalso. exact (split_nonempty _ _ E).
Qed.

Lemma split_no_sep sep l : ~ In sep l -> split sep l = [l].
Proof.
  induction l as [|c l IH]; simpl; intros H; [reflexivity|].
  destruct (N.eqb_spec c sep) as [->|_]; [exfalso; auto|].
  rewrite IH by tauto. reflexivity.
Qed.

Lemma split_join sep l ls :
  Forall (fun x => ~ In sep x) (l :: ls) ->
  split sep (join [sep] (l :: ls)) = l :: ls.
Proof.
  revert l. induction ls as [|l' ls IH]; intros l H.
  - simpl. apply split_no_sep. now inversion H.
  - change (join [sep] (l :: l' :: ls)) with (l ++ sep :: join [sep] (l' :: ls)).
    rewrite split_app. inversion H; subst.
    rewrite IH by assumption. rewrite split_no_sep by assumption. reflexivity.
Qed.

Lemma join_split sep s : join [sep] (split sep s) = s.
Proof.
  induction s as [|c s IH]; [reflexivity|]. simpl.
  destruct (N.eqb_spec c sep) as [->|_].
  - destruct (split sep s) eqn:E; [exfalso; exact (split_nonempty _ _ E)|].
    simpl in *. rewrite IH. reflexivity.
  - destruct (split sep s) as [|l ls] eqn:E; [exfalso; exact (split_nonempty _ _ E)|].
    destruct ls; simpl in *; rewrite IH; reflexivity.
Qed.

Lemma lstrip_length s : length (lstrip s) <= length s.
Proof.
  induction s as [|c s IH]; simpl; [lia|].
  destruct (isspace c); simpl; lia.
Qed.

Lemma lstrip_app_nonspace u d v :
  isspace d = false -> lstrip (u ++ d :: v) = lstrip u ++ d :: v.
Proof.
  intros Hd. induction u as [|c u IH]; simpl.
  - rewrite Hd. reflexivity.
  - destruct (isspace c); [exact IH | reflexivity].
Qed.

Lemma rstrip_length s : length (rstrip s) <= length s.
Proof.
  unfold rstrip. rewrite length_rev.
  etransitivity; [apply lstrip_length|]. rewrite length_rev. lia.
Qed.

Lemma strip_length s : length (strip s) <= length s.
Proof.
  unfold strip. etransitivity; [apply rstrip_length | apply lstrip_length].
Qed.

Lemma rstrip_app_nonspace u d v :
  isspace d = false -> rstrip (u ++ d :: v) = u ++ d :: rstrip v.
Proof.
  intros Hd. unfold rstrip.
  rewrite rev_app_distr. simpl. rewrite <- app_assoc. simpl.
  rewrite lstrip_app_nonspace by assumption.
  rewrite rev_app_distr. simpl. rewrite rev_involutive, <- app_assoc. reflexivity.
Qed.

(* ------------------------------------------------------------------ *)
(** ** The matcher on the script's patterns *)

Lemma skip_space s : skip Space s = lstrip s.
Proof. induction s as [|c s IH]; simpl; [|rewrite IH]; reflexivity. Qed.

(** Backtracking never helps when the continuation rejects every string
    that starts with a character of the run. *)
Lemma many_greedy {A} a (k : str -> option A) s :
  (forall x t, atom_match a x = true -> k (x :: t) = None) ->
  many a s k = k (skip a s).
Proof.
  intros Hk. induction s as [|x s IH]; simpl; [reflexivity|].
  destruct (atom_match a x) eqn:Hx; [|reflexivity].
  rewrite IH. destruct (k (skip a s)) eqn:E; [reflexivity|].
  apply Hk. exact Hx.
Qed.

Lemma many_total {A} a (k : str -> option A) s :
  (forall t, k t <> None) -> many a s k = k (skip a s).
Proof.
  intros Hk. induction s as [|x s IH]; simpl; [reflexivity|].
  destruct (atom_match a x); [|reflexivity].
  rewrite IH. destruct (k (skip a s)) eqn:E; [reflexivity|].
  exfalso. exact (Hk _ E).
Qed.

Lemma exec_word {A} w s (k : str -> option A) :
  exec (word w) s k =
  match ci_prefix w s with Some r => k r | None => None end.
Proof.
  revert s. induction w as [|c w IH]; intros s; [reflexivity|].
  cbn [word fold_right exec ci_prefix]. fold (word w).
  destruct s as [|x s]; [reflexivity|].
  destruct (atom_match (Lit c) x); [apply IH | reflexivity].
Qed.

Lemma exec_alts {A} ws s (k : str -> option A) :
  exec (alts ws) s k =
  (fix first (ws : list str) : option A :=
     match ws with
     | [] => None
     | w :: ws' =>
         match (match ci_prefix w s with Some r => k r | None => None end) with
         | Some x => Some x
         | None => first ws'
         end
     end) ws.
Proof.
  induction ws as [|w ws IH].
  - simpl. destruct s; reflexivity.
  - destruct ws as [|w' ws].
    + cbn [alts]. rewrite exec_word.
      destruct (match ci_prefix w s with Some r => k r | None => None end); reflexivity.
    + change (alts (w :: w' :: ws)) with (Alt (word w) (alts (w' :: ws))).
      cbn [exec]. rewrite exec_word, IH. reflexivity.
Qed.

Lemma delimiter_not_space d : atom_match delimiter d = true -> isspace d = false.
Proof.
  unfold delimiter. cbn. intros H.
  repeat (apply orb_prop in H; destruct H as [H|H]);
    try discriminate; apply N.eqb_eq in H; subst; reflexivity.
Qed.

(** The tail [\s*[:\-]] of a pattern. *)
Lemma exec_tail r :
  exec (Cat (Many Space) (Atom delimiter)) r (@Some str) = after_label r.
Proof.
  cbn [exec]. rewrite many_greedy.
  - rewrite skip_space. unfold after_label. destruct (lstrip r); reflexivity.
  - intros x t Hx. cbn [atom_match] in Hx.
    destruct (atom_match delimiter x) eqn:Hd; [|reflexivity].
    apply delimiter_not_space in Hd. congruence.
Qed.

(** The tail [\s*[:\-]\s*] of the substitution pattern. *)
Lemma exec_tail_sub r :
  exec (Cat (Many Space) (Cat (Atom delimiter) (Many Space))) r (@Some str)
  = option_map lstrip (after_label r).
Proof.
  cbn [exec]. rewrite many_greedy.
  - rewrite skip_space. unfold after_label. destruct (lstrip r) as [|d r']; [reflexivity|].
    destruct (atom_match delimiter d); [|reflexivity].
    rewrite many_total by discriminate. rewrite skip_space. reflexivity.
  - intros x t Hx. cbn [atom_match] in Hx.
    destruct (atom_match delimiter x) eqn:Hd; [|reflexivity].
    apply delimiter_not_space in Hd. congruence.
Qed.

Lemma exec_cat {A} r1 r2 s (k : str -> option A) :
  exec (Cat r1 r2) s k = exec r1 s (fun s1 => exec r2 s1 k).
Proof. reflexivity. Qed.

Lemma re_match_labels labels s :
  re_match (Cat (alts labels) (Cat (Many Space) (Atom delimiter))) s
  = label_match labels s.
Proof.
  unfold re_match. rewrite exec_cat, exec_alts.
  induction labels as [|w labels IH]; [reflexivity|].
  cbn [label_match]. unfold label_then_delimiter at 1.
  destruct (ci_prefix w s) as [r|]; [|exact IH].
  rewrite exec_tail. destruct (after_label r); [reflexivity | exact IH].
Qed.

Lemma re_match_labels_sub labels s :
  re_match (Cat (alts labels) (Cat (Many Space) (Cat (Atom delimiter) (Many Space)))) s
  = option_map lstrip (label_match labels s).
Proof.
  unfold re_match. rewrite exec_cat, exec_alts.
  induction labels as [|w labels IH]; [reflexivity|].
  cbn [label_match]. unfold label_then_delimiter at 1.
  destruct (ci_prefix w s) as [r|]; [|exact IH].
  rewrite exec_tail_sub. destruct (after_label r); [reflexivity | exact IH].
Qed.

Lemma re_match_interviewee s :
  re_match interviewee_re s = label_match interviewee_labels s.
Proof. apply re_match_labels. Qed.

Lemma re_match_interviewer s :
  re_match interviewer_re s = label_match interviewer_labels s.
Proof. apply re_match_labels. Qed.

Lemma re_sub_interviewee s r :
  label_match interviewee_labels s = Some r ->
  re_sub interviewee_prefix_re [] s = lstrip r.
Proof.
  intros H. unfold re_sub, interviewee_prefix_re.
  rewrite re_match_labels_sub, H. reflexivity.
Qed.

(** The loop body, line by line. *)
Lemma filter_step_keep acc line :
  filter_step acc line =
  match keep line with Some r => acc ++ [r] | None => acc end.
Proof.
  unfold filter_step, keep. destruct (strip line) as [|c l] eqn:E; [reflexivity|].
  rewrite re_match_interviewee.
  destruct (label_match interviewee_labels (c :: l)) as [r|] eqn:Hm.
  - cbn [is_some]. rewrite (re_sub_interviewee _ Hm). reflexivity.
  - cbn [is_some]. destruct (is_some (re_match interviewer_re (c :: l))); reflexivity.
Qed.

Lemma fold_filter_step lines acc :
  fold_left filter_step lines acc = acc ++ kept lines.
Proof.
  revert acc. induction lines as [|l lines IH]; intros acc; simpl.
  - now rewrite app_nil_r.
  - rewrite IH, filter_step_keep. destruct (keep l); [|reflexivity].
    now rewrite <- app_assoc.
Qed.

Lemma extract_kept text :
  extract_interviewee_text text = join [nl] (kept (split nl text)).
Proof. unfold extract_interviewee_text. now rewrite fold_filter_step. Qed.

Lemma kept_app a b : kept (a ++ b) = kept a ++ kept b.
Proof.
  induction a as [|l a IH]; simpl; [reflexivity|].
  destruct (keep l); simpl; now rewrite IH.
Qed.

(* ------------------------------------------------------------------ *)
(** ** Letters, whitespace and delimiters *)

(** The pattern letter a character can stand for under (?i). *)
Lemma lit_variants c x :
  lower_ascii c -> atom_match (Lit c) x = true ->
  x = c \/ (x + 32 = c)%N \/ (x = 304 /\ c = 105)%N \/ (x = 305 /\ c = 105)%N
  \/ (x = 383 /\ c = 115)%N \/ (x = 8490 /\ c = 107)%N.
Proof.
  unfold lower_ascii, atom_match, tolower, ignorecase_fixes. intros Hc H.
  destruct (N.leb_spec 65 x), (N.leb_spec x 90); cbn [andb] in H;
    destruct (N.eqb_spec x 304), (N.eqb_spec x 8490);
    destruct (N.eqb_spec c 105), (N.eqb_spec c 115); cbn [existsb orb] in H;
    repeat match type of H with
      | context [N.eqb ?a ?b] => destruct (N.eqb_spec a b); cbn [existsb orb] in H
      end; try discriminate; lia.
Qed.

Lemma isspace_cases x :
  isspace x = true ->
  (x < 65 \/ x = 133 \/ x = 160 \/ (5760 <= x /\ x <> 8490))%N.
Proof.
  unfold isspace. intros H. apply existsb_exists in H.
  destruct H as [y [Hy E]]. apply N.eqb_eq in E. subst y.
  unfold whitespace in Hy. cbn [In] in Hy.
  repeat (destruct Hy as [<-|Hy]; [lia|]). contradiction.
Qed.

Lemma letter_not_space c x :
  lower_ascii c -> atom_match (Lit c) x = true -> isspace x = false.
Proof.
  intros Hc H. destruct (isspace x) eqn:E; [|reflexivity].
  apply isspace_cases in E. apply (@lit_variants c x Hc) in H.
  unfold lower_ascii in Hc. lia.
Qed.

Lemma letter_not_delimiter c x :
  lower_ascii c -> atom_match (Lit c) x = true -> atom_match delimiter x = false.
Proof.
  intros Hc H. destruct (atom_match delimiter x) eqn:E; [|reflexivity].
  apply (@lit_variants c x Hc) in H. unfold lower_ascii in Hc.
  unfold delimiter in E. cbn in E.
  repeat (apply orb_prop in E; destruct E as [E|E]); try discriminate;
    apply N.eqb_eq in E; lia.
Qed.

Lemma letter_unique c c' x :
  lower_ascii c -> lower_ascii c' ->
  atom_match (Lit c) x = true -> atom_match (Lit c') x = true -> c = c'.
Proof.
  intros Hc Hc' H H'.
  apply (@lit_variants c x Hc) in H. apply (@lit_variants c' x Hc') in H'.
  unfold lower_ascii in *. lia.
Qed.

(* ------------------------------------------------------------------ *)
(** ** Labels *)

Lemma labels_are_labels :
  Forall label (interviewee_labels ++ interviewer_labels).
Proof.
  repeat constructor; try discriminate; unfold lower_ascii; cbn; lia.
Qed.

Lemma ci_prefix_spells w s r :
  ci_prefix w s = Some r -> exists w', s = w' ++ r /\ spells w w'.
Proof.
  revert s. induction w as [|c w IH]; intros s H; cbn [ci_prefix] in H.
  - inversion H; subst. exists []. split; [reflexivity | constructor].
  - destruct s as [|x s]; [discriminate|].
    destruct (atom_match (Lit c) x) eqn:Hx; [|discriminate].
    destruct (IH _ H) as [w' [-> Hw]].
    exists (x :: w'). split; [reflexivity | constructor; assumption].
Qed.

Lemma spells_ci_prefix w w' t : spells w w' -> ci_prefix w (w' ++ t) = Some t.
Proof.
  induction 1 as [|c x w w' Hx _ IH]; cbn [ci_prefix app]; [reflexivity|].
  rewrite Hx. exact IH.
Qed.

Lemma spells_length w w' : spells w w' -> length w' = length w.
Proof. induction 1; simpl; congruence. Qed.

Lemma lstrip_split s :
  exists ws, s = ws ++ lstrip s /\ Forall (fun c => isspace c = true) ws.
Proof.
  induction s as [|c s [ws [E F]]]; simpl.
  - exists []. split; [reflexivity | constructor].
  - destruct (isspace c) eqn:Hc.
    + exists (c :: ws). split; [simpl; congruence | constructor; assumption].
    + exists []. split; [reflexivity | constructor].
Qed.

Lemma lstrip_spaces ws t :
  Forall (fun c => isspace c = true) ws -> lstrip (ws ++ t) = lstrip t.
Proof. induction 1 as [|c ws Hc _ IH]; simpl; [|rewrite Hc]; auto. Qed.

Lemma after_label_shape r r' :
  after_label r = Some r' ->
  exists ws d, r = ws ++ d :: r' /\ Forall (fun c => isspace c = true) ws
               /\ atom_match delimiter d = true.
Proof.
  unfold after_label. intros H.
  destruct (lstrip_split r) as [ws [E F]].
  destruct (lstrip r) as [|d t]; [discriminate|].
  destruct (atom_match delimiter d) eqn:Hd; [|discriminate].
  inversion H; subst. eauto.
Qed.

Lemma after_label_intro ws d t :
  Forall (fun c => isspace c = true) ws -> atom_match delimiter d = true ->
  after_label (ws ++ d :: t) = Some t.
Proof.
  intros F Hd. unfold after_label. rewrite lstrip_spaces by assumption.
  cbn [lstrip]. rewrite (delimiter_not_space _ Hd), Hd. reflexivity.
Qed.

Lemma after_label_length r r' : after_label r = Some r' -> length r' < length r.
Proof.
  intros H. destruct (after_label_shape _ H) as [ws [d [-> _]]].
  rewrite length_app. simpl. lia.
Qed.

(** A line starts with at most one label followed by a delimiter. *)
Lemma label_unique w1 w2 s r1 r2 :
  Forall lower_ascii w1 -> Forall lower_ascii w2 ->
  label_then_delimiter w1 s = Some r1 -> label_then_delimiter w2 s = Some r2 ->
  w1 = w2.
Proof.
  unfold label_then_delimiter. revert w2 s.
  induction w1 as [|c1 w1 IH]; intros w2 s F1 F2 H1 H2.
  - destruct w2 as [|c2 w2]; [reflexivity|]. exfalso. cbn [ci_prefix] in H1, H2.
    destruct s as [|x s]; [discriminate|].
    destruct (atom_match (Lit c2) x) eqn:Hx; [|discriminate].
    inversion F2; subst. unfold after_label in H1. cbn [lstrip] in H1.
    rewrite (@letter_not_space c2 x H3 Hx), (@letter_not_delimiter c2 x H3 Hx) in H1.
    discriminate.
  - destruct s as [|x s]; [discriminate|]. cbn [ci_prefix] in H1.
    destruct (atom_match (Lit c1) x) eqn:Hx; [|discriminate].
    inversion F1; subst.
    destruct w2 as [|c2 w2].
    + exfalso. cbn [ci_prefix] in H2. unfold after_label in H2. cbn [lstrip] in H2.
      rewrite (@letter_not_space c1 x H3 Hx), (@letter_not_delimiter c1 x H3 Hx) in H2.
      discriminate.
    + cbn [ci_prefix] in H2. destruct (atom_match (Lit c2) x) eqn:Hx2; [|discriminate].
      inversion F2; subst.
      f_equal; [exact (@letter_unique c1 c2 x H3 H5 Hx Hx2) | eapply IH; eassumption].
Qed.

Lemma label_match_found labels s r :
  label_match labels s = Some r ->
  exists w, In w labels /\ label_then_delimiter w s = Some r.
Proof.
  induction labels as [|w labels IH]; simpl; [discriminate|].
  destruct (label_then_delimiter w s) eqn:E.
  - intros H; inversion H; subst. eauto.
  - intros H. destruct (IH H) as [w' [Hin Hw]]. eauto.
Qed.

Lemma label_match_none labels s :
  (forall w, In w labels -> label_then_delimiter w s = None) ->
  label_match labels s = None.
Proof.
  induction labels as [|w labels IH]; simpl; intros H; [reflexivity|].
  rewrite (H w) by auto. apply IH. auto.
Qed.

Lemma label_match_some labels w s r :
  In w labels -> label_then_delimiter w s = Some r ->
  exists r', label_match labels s = Some r'.
Proof.
  induction labels as [|w0 labels IH]; simpl; [contradiction|].
  intros Hin Hw. destruct (label_then_delimiter w0 s) eqn:E; [eauto|].
  destruct Hin as [->|Hin]; [congruence | eauto].
Qed.

Lemma label_in_lower w :
  In w (interviewee_labels ++ interviewer_labels) -> label w.
Proof. intros H. exact (proj1 (Forall_forall _ _) labels_are_labels w H). Qed.

(** An interviewer line is not an interviewee line. *)
Lemma interviewer_not_interviewee s r :
  label_match interviewer_labels s = Some r ->
  label_match interviewee_labels s = None.
Proof.
  intros H. destruct (label_match_found _ _ H) as [w [Hin Hw]].
  apply label_match_none. intros w' Hin'.
  destruct (label_then_delimiter w' s) eqn:E; [exfalso | reflexivity].
  assert (w' = w).
  { eapply label_unique; try eassumption; apply label_in_lower, in_or_app; auto. }
  subst w'. revert Hin Hin'. clear.
  unfold interviewer_labels, interviewee_labels. cbn [In].
  intros H1 H2.
  repeat (destruct H1 as [H1|H1]; [subst w|]); try contradiction;
    repeat (destruct H2 as [H2|H2]; [discriminate H2|]); contradiction.
Qed.

Lemma label_match_exact labels w s r :
  Forall label labels -> In w labels ->
  label_then_delimiter w s = Some r -> label_match labels s = Some r.
Proof.
  intros F Hin Hw. destruct (label_match_some _ _ _ Hin Hw) as [r' Hr'].
  rewrite Hr'. destruct (label_match_found _ _ Hr') as [w' [Hin' Hw']].
  assert (w' = w).
  { eapply label_unique; try eassumption;
      [exact (proj2 (proj1 (Forall_forall _ _) F w' Hin'))
      |exact (proj2 (proj1 (Forall_forall _ _) F w Hin))]. }
  subst w'. congruence.
Qed.

Lemma interviewee_labels_ok : Forall label interviewee_labels.
Proof. exact (proj1 (proj1 (Forall_app _ _ _) labels_are_labels)). Qed.

Lemma interviewer_labels_ok : Forall label interviewer_labels.
Proof. exact (proj2 (proj1 (Forall_app _ _ _) labels_are_labels)). Qed.

(** A label line still starts with its label once stripped. *)
Lemma label_match_strip labels s r :
  Forall label labels ->
  label_match labels s = Some r -> label_match labels (strip s) = Some (rstrip r).
Proof.
  intros F H. destruct (label_match_found _ _ H) as [w [Hin Hw]].
  apply label_match_exact with (w := w); try assumption.
  destruct (proj1 (Forall_forall _ _) F w Hin) as [Hne Hlow].
  unfold label_then_delimiter in *.
  destruct (ci_prefix w s) as [r1|] eqn:E; [|discriminate].
  destruct (ci_prefix_spells _ _ E) as [w' [-> Hsp]].
  destruct (after_label_shape _ Hw) as [ws [d [-> [Hws Hd]]]].
  assert (Hl : lstrip (w' ++ ws ++ d :: r) = w' ++ ws ++ d :: r).
  { inversion Hsp as [|c x w0 w0' Hx Hrest]; subst; [congruence|].
    apply Forall_inv in Hlow. cbn [app lstrip].
    now rewrite (@letter_not_space c x Hlow Hx). }
  unfold strip. rewrite Hl.
  replace (w' ++ ws ++ d :: r) with ((w' ++ ws) ++ d :: r) by now rewrite <- app_assoc.
  rewrite rstrip_app_nonspace by exact (delimiter_not_space _ Hd).
  rewrite <- app_assoc, (spells_ci_prefix _ Hsp).
  apply after_label_intro; assumption.
Qed.

Lemma ci_prefix_length w s r : ci_prefix w s = Some r -> length s = length w + length r.
Proof.
  intros H. destruct (ci_prefix_spells _ _ H) as [w' [-> Hsp]].
  rewrite length_app, (spells_length Hsp). reflexivity.
Qed.

(** A retained remainder is at least two characters shorter than its line:
    the label and the delimiter are gone. *)
Lemma keep_length line r : keep line = Some r -> length r + 2 <= length line.
Proof.
  unfold keep. pose proof (strip_length line) as Hs.
  destruct (strip line) as [|c l]; [discriminate|].
  destruct (label_match interviewee_labels (c :: l)) as [r0|] eqn:E; [|discriminate].
  intros H; inversion H; subst. clear H.
  destruct (label_match_found _ _ E) as [w [Hin Hw]].
  destruct (proj1 (Forall_forall _ _) interviewee_labels_ok w Hin) as [Hne _].
  unfold label_then_delimiter in Hw.
  destruct (ci_prefix w (c :: l)) as [r1|] eqn:E1; [|discriminate].
  apply ci_prefix_length in E1. apply after_label_length in Hw.
  pose proof (lstrip_length r0).
  destruct w; [congruence|]. simpl in *. lia.
Qed.

(** The length of a text, counted line by line. *)
Lemma join_length ls :
  length (join [nl] ls) = list_sum (map (fun l => S (length l)) ls) - 1.
Proof.
  induction ls as [|l ls IH]; [reflexivity|].
  destruct ls as [|l' ls].
  - simpl. lia.
  - change (join [nl] (l :: l' :: ls)) with (l ++ [nl] ++ join [nl] (l' :: ls)).
    rewrite !length_app, IH. simpl. lia.
Qed.

Lemma kept_length ls :
  list_sum (map (fun l => S (length l)) (kept ls)) + 2 * length (kept ls)
  <= list_sum (map (fun l => S (length l)) ls).
Proof.
  induction ls as [|l ls IH]; simpl; [lia|].
  destruct (keep l) as [r|] eqn:E; simpl.
  - apply keep_length in E. lia.
  - lia.
Qed.

(** The filter shortens every text but the empty one. *)
Lemma extract_fixed_point s : extract_interviewee_text s = s -> s = [].
Proof.
  rewrite extract_kept. intros H.
  pose proof (join_split nl s) as Hs.
  pose proof (kept_length (split nl s)) as Hk.
  assert (L1 := join_length (kept (split nl s))).
  assert (L2 := join_length (split nl s)).
  rewrite H in L1. rewrite Hs in L2.
  destruct (kept (split nl s)) as [|k ks] eqn:E.
  - simpl in H. congruence.
  - simpl in *. lia.
Qed.

Lemma single_line_spec l : single_line l = true -> ~ In nl l.
Proof.
  unfold single_line. intros H Hin.
  apply negb_true_iff in H.
  assert (existsb (N.eqb nl) l = true); [|congruence].
  apply existsb_exists. exists nl. split; [assumption | apply N.eqb_refl].
Qed.

Lemma kept_split_join ls :
  forallb single_line ls = true -> kept (split nl (join [nl] ls)) = kept ls.
Proof.
  intros H. destruct ls as [|l ls]; [reflexivity|].
  rewrite split_join; [reflexivity|].
  apply Forall_forall. intros x Hx. apply single_line_spec.
  exact (proj1 (forallb_forall _ _) H x Hx).
Qed.

Lemma keep_blank_or_interviewer line :
  blank_or_interviewer line = true -> keep line = None.
Proof.
  unfold blank_or_interviewer, keep.
  destruct (strip line) as [|c l] eqn:E; [reflexivity|].
  rewrite !re_match_interviewer. intros H.
  assert (Hs : exists r, label_match interviewer_labels (c :: l) = Some r).
  { destruct (label_match interviewer_labels (c :: l)) eqn:E1; [eauto|].
    destruct (label_match interviewer_labels line) as [r|] eqn:E2; [|discriminate].
    apply label_match_strip in E2; [|exact interviewer_labels_ok].
    rewrite E in E2. congruence. }
  destruct Hs as [r Hr]. now rewrite (interviewer_not_interviewee _ Hr).
Qed.

Lemma keep_unlabeled line : unlabeled line = true -> keep line = None.
Proof.
  unfold unlabeled, keep. destruct (strip line) as [|c l]; [discriminate|].
  rewrite re_match_interviewee.
  destruct (label_match interviewee_labels (c :: l)); [discriminate | reflexivity].
Qed.

Lemma keep_label_only line : label_only line -> keep line = Some [].
Proof.
  intros (lab & w & ws & d & Hin & Hsp & Hws & Hd & E).
  unfold keep. rewrite E.
  destruct (proj1 (Forall_forall _ _) interviewee_labels_ok lab Hin) as [Hne _].
  assert (Hm : label_match interviewee_labels (w ++ ws ++ [d]) = Some []).
  { apply label_match_exact with (w := lab);
      [exact interviewee_labels_ok | assumption |].
    unfold label_then_delimiter. rewrite (spells_ci_prefix _ Hsp).
    apply after_label_intro; assumption. }
  destruct w as [|x w]; [inversion Hsp; congruence|].
  cbn [app] in Hm |- *. rewrite Hm. reflexivity.
Qed.

(* ================================================================== *)
(** * Properties of the speaker filter *)
(* ================================================================== *)

(** C1. On the text
    "Interviewer: How are you?\nParticipant: I am fine.\nR: Great weather."
    the filter returns exactly "I am fine.\nGreat weather.": the interviewer
    line is dropped, the labels "Participant:" and "R:" are stripped (the
    one-letter "R" is tried as an interviewee label first), and the
    remainders keep their order. *)
Theorem extract_spec_example :
  extract_interviewee_text
    (py "Interviewer: How are you?" ++ [nl] ++ py "Participant: I am fine." ++ [nl]
     ++ py "R: Great weather.")
  = py "I am fine." ++ [nl] ++ py "Great weather."
  /\ re_match interviewee_re (py "R: Great weather.") = Some (py " Great weather.").
Proof. split; vm_compute; reflexivity. Qed.

(** C2. A text made only of blank lines and of lines that start with an
    interviewer label ("interviewer", "int" or "i" in any case, optional
    whitespace, then a colon or a hyphen) is filtered to the empty string;
    and a non-empty line that matches neither pattern adds nothing: the
    output is the output of the text without that line. *)
Theorem extract_drops_interviewer_and_unlabeled :
  (forall text,
      forallb blank_or_interviewer (split nl text) = true ->
      extract_interviewee_text text = [])
  /\
  (forall before line after,
      forallb single_line (before ++ line :: after) = true ->
      unlabeled line = true ->
      extract_interviewee_text (join [nl] (before ++ line :: after))
      = extract_interviewee_text (join [nl] (before ++ after))).
Proof.
  split.
  - intros text H. rewrite extract_kept.
    assert (K : kept (split nl text) = []); [|now rewrite K].
    induction (split nl text) as [|l ls IH]; [reflexivity|].
    simpl in H. apply andb_prop in H. destruct H as [Hl Hls].
    simpl. rewrite (keep_blank_or_interviewer _ Hl). auto.
  - intros before line after Hs Hu.
    rewrite !extract_kept, !kept_split_join.
    + rewrite !kept_app. simpl. now rewrite (keep_unlabeled _ Hu).
    + rewrite forallb_app in Hs |- *. simpl in Hs.
      apply andb_prop in Hs. destruct Hs as [H1 H2].
      apply andb_prop in H2. destruct H2 as [_ H2]. now rewrite H1, H2.
    + assumption.
Qed.

Lemma extract_drops_interviewer_and_unlabeled_witness :
  extract_interviewee_text
    (py "Interviewer: hello" ++ [nl] ++ [nl] ++ py "  " ++ [nl] ++ py " I - bye" ++ [nl]
     ++ py "int : hm") = []
  /\ extract_interviewee_text
       (join [nl] ([py "P: yes"] ++ py "(laughs)" :: [py "R: no"]))
     = extract_interviewee_text (join [nl] ([py "P: yes"] ++ [py "R: no"])).
Proof.
  split.
  - apply (proj1 extract_drops_interviewer_and_unlabeled). vm_compute. reflexivity.
  - apply (proj2 extract_drops_interviewer_and_unlabeled); vm_compute; reflexivity.
Defined.

(** C3 does not hold as stated: on the labeled text of C1 the first pass
    leaves "I am fine.\nGreat weather.", whose lines carry no label, and the
    second pass drops them all. *)
Lemma extract_twice_counterexample :
  let t := py "Interviewer: How are you?" ++ [nl] ++ py "Participant: I am fine."
           ++ [nl] ++ py "R: Great weather." in
  all_labeled t = true
  /\ extract_interviewee_text t = py "I am fine." ++ [nl] ++ py "Great weather."
  /\ extract_interviewee_text (extract_interviewee_text t) = []
  /\ extract_interviewee_text (extract_interviewee_text t) <> extract_interviewee_text t.
Proof. vm_compute. repeat split; discriminate. Qed.

(** C3, amended. A second pass changes every output of the filter but the
    empty one: [extract (extract t) = extract t] exactly when [extract t]
    is the empty string. *)
Theorem extract_twice_iff_empty text :
  extract_interviewee_text (extract_interviewee_text text) = extract_interviewee_text text
  <-> extract_interviewee_text text = [].
Proof.
  split.
  - apply extract_fixed_point.
  - intros H. rewrite H. reflexivity.
Qed.

(** C10. A line that is nothing but an interviewee label and its delimiter
    is retained as an empty remainder: the loop appends the empty string, so
    the output has an empty line at that place, although blank input lines
    are skipped. *)
Theorem label_only_line_kept_empty :
  (forall line acc, label_only line -> filter_step acc line = acc ++ [[]])
  /\
  (forall before line after,
      forallb single_line (before ++ line :: after) = true ->
      label_only line ->
      extract_interviewee_text (join [nl] (before ++ line :: after))
      = join [nl] (fold_left filter_step before [] ++ [] :: fold_left filter_step after []))
  /\
  extract_interviewee_text (py "P: a" ++ [nl] ++ py "P:" ++ [nl] ++ [nl] ++ py "P: b")
  = py "a" ++ [nl; nl] ++ py "b".
Proof.
  split; [|split].
  - intros line acc H. now rewrite filter_step_keep, (keep_label_only H).
  - intros before line after Hs H.
    rewrite extract_kept, kept_split_join by assumption.
    rewrite kept_app, !fold_filter_step. simpl. now rewrite (keep_label_only H).
  - vm_compute. reflexivity.
Qed.

Lemma label_only_line_kept_empty_witness :
  filter_step [py "a"] (py " r  - ") = [py "a"] ++ [[]]
  /\ extract_interviewee_text (join [nl] ([py "P: a"] ++ py "Resp :" :: [py "P: b"]))
     = join [nl] (fold_left filter_step [py "P: a"] [] ++ []
                  :: fold_left filter_step [py "P: b"] []).
Proof.
  split.
  - apply (proj1 label_only_line_kept_empty).
    exists (py "r"), (py "r"), (py "  "), 45%N.
    repeat split; try (vm_compute; tauto).
    + repeat constructor.
    + repeat constructor.
  - apply (proj1 (proj2 label_only_line_kept_empty)); [vm_compute; reflexivity|].
    exists (py "resp"), (py "Resp"), (py " "), 58%N.
    repeat split; try (vm_compute; tauto).
    + repeat constructor.
    + repeat constructor.
Defined.

(* ================================================================== *)
(** * Loading transcripts and the codebook *)
(* ================================================================== *)

Lemma str_eqb_eq a b : str_eqb a b = true <-> a = b.
Proof.
  unfold str_eqb. destruct (list_eq_dec N.eq_dec a b); split; congruence.
Qed.

Lemma str_eqb_refl a : str_eqb a a = true.
Proof. now apply str_eqb_eq. Qed.

Lemma endswith_txt_docx path :
  endswith path (py ".docx") = true -> endswith path (py ".txt") = false.
Proof.
  unfold endswith. destruct (rev path) as [|c r]; [discriminate|].
  cbn. destruct (N.eqb_spec c 120); [subst; reflexivity | discriminate].
Qed.

(** C4. A path ending in ".txt" yields the text read from the file, a path
    ending in ".docx" the document's paragraphs joined by newlines, whenever
    the file can be read; any other path raises the error
    "Unsupported file format: <path>" and no file is opened. *)
Theorem load_transcript_by_extension env path h :
  (endswith path (py ".txt") = true ->
   forall text, open_read env h path = Ok text ->
     load_transcript env path h = (Ok text, h ++ [Open path]))
  /\
  (endswith path (py ".docx") = true ->
   forall paragraphs, docx_paragraphs env h path = Ok paragraphs ->
     load_transcript env path h = (Ok (join [nl] paragraphs), h ++ [Document path]))
  /\
  (supported path = false ->
   load_transcript env path h
   = (Raise (ValueError (py "Unsupported file format: " ++ path)), h)).
Proof.
  unfold load_transcript, supported. repeat split.
  - intros E text Ht. rewrite E. unfold call. now rewrite Ht.
  - intros E ps Hp. rewrite (endswith_txt_docx _ E), E.
    unfold bind, call, ret. now rewrite Hp.
  - intros E. apply orb_false_elim in E. destruct E as [E1 E2].
    now rewrite E1, E2.
Qed.

Lemma load_transcript_by_extension_witness :
  let env := demo_env (Ok demo_codebook) [] [] None in
  load_transcript env (py "transcripts/p01.txt") []
  = (Ok (py "P: hello"), [Open (py "transcripts/p01.txt")])
  /\ load_transcript env (py "transcripts/p02.docx") []
     = (Ok (py "Interviewer: hi" ++ [nl] ++ py "R: fine"),
        [Document (py "transcripts/p02.docx")])
  /\ load_transcript env (py "transcripts/p03.pdf") []
     = (Raise (ValueError (py "Unsupported file format: transcripts/p03.pdf")), []).
Proof.
  intros env. split; [|split].
  - apply (proj1 (load_transcript_by_extension env (py "transcripts/p01.txt") []));
      reflexivity.
  - exact (proj1 (proj2 (load_transcript_by_extension env (py "transcripts/p02.docx") []))
             eq_refl [py "Interviewer: hi"; py "R: fine"] eq_refl).
  - apply (proj2 (proj2 (load_transcript_by_extension env (py "transcripts/p03.pdf") [])));
      reflexivity.
Defined.

(** The loop over the rows of the codebook. *)
Lemma theme_lines_ok rows entries lines h :
  Forall2 theme_row rows entries ->
  for_fold rows lines theme_line h = (Ok (lines ++ map bullet entries), h).
Proof.
  intros F. revert lines. induction F as [|row e rows entries [Hc Hd] _ IH]; intros lines.
  - simpl. unfold ret. now rewrite app_nil_r.
  - cbn [for_fold]. unfold bind at 1. unfold theme_line, bind, lift, ret.
    rewrite Hc, Hd. rewrite IH. simpl. now rewrite <- app_assoc.
Qed.

Lemma load_themes_read env theme_path h :
  load_themes env theme_path h =
  match table_at env h theme_path with
  | Ok df =>
      match for_fold (iter_rows df) [] theme_line (h ++ [read_event theme_path]) with
      | (Ok lines, h') => (Ok (join [nl] lines), h')
      | (Raise e, h') => (Raise e, h')
      end
  | Raise e => (Raise e, h ++ [read_event theme_path])
  end.
Proof.
  unfold load_themes, table_at, read_event, bind, call, ret.
  destruct (endswith theme_path (py ".xlsx"));
    [destruct (read_excel env h theme_path) | destruct (read_csv env h theme_path)];
    try reflexivity;
    destruct (for_fold _ _ _ _) as [[lines|e] h']; reflexivity.
Qed.

(** C5. Every row of the codebook becomes the line "- <code>: <definition>",
    the lines are joined by newlines in row order; the rows
    (A, foo), (B, bar) give exactly "- A: foo\n- B: bar". *)
Theorem load_themes_formats_rows :
  (forall env theme_path h df entries,
      table_at env h theme_path = Ok df ->
      Forall2 theme_row (iter_rows df) entries ->
      load_themes env theme_path h
      = (Ok (join [nl] (map bullet entries)), h ++ [read_event theme_path]))
  /\
  (forall env theme_path h,
      table_at env h theme_path = Ok demo_codebook ->
      fst (load_themes env theme_path h) = Ok (py "- A: foo" ++ [nl] ++ py "- B: bar")).
Proof.
  assert (G : forall env theme_path h df entries,
      table_at env h theme_path = Ok df ->
      Forall2 theme_row (iter_rows df) entries ->
      load_themes env theme_path h
      = (Ok (join [nl] (map bullet entries)), h ++ [read_event theme_path])).
  { intros env theme_path h df entries Ht F.
    rewrite load_themes_read, Ht, (theme_lines_ok _ _ F). reflexivity. }
  split; [exact G|].
  intros env theme_path h Ht.
  rewrite (G env theme_path h demo_codebook
             [(CStr (py "A"), CStr (py "foo")); (CStr (py "B"), CStr (py "bar"))] Ht).
  - reflexivity.
  - repeat constructor.
Qed.

Lemma load_themes_formats_rows_witness :
  let env := demo_env (Ok demo_codebook) [] [] None in
  load_themes env (py "themes.xlsx") []
  = (Ok (py "- A: foo" ++ [nl] ++ py "- B: bar"), [ReadExcel (py "themes.xlsx")])
  /\ fst (load_themes env (py "themes.csv") []) = Ok (py "- A: foo" ++ [nl] ++ py "- B: bar").
Proof.
  intros env. split.
  - apply (proj1 load_themes_formats_rows env (py "themes.xlsx") [] demo_codebook
             [(CStr (py "A"), CStr (py "foo")); (CStr (py "B"), CStr (py "bar"))]).
    + reflexivity.
    + repeat constructor.
  - apply (proj2 load_themes_formats_rows env (py "themes.csv") []). reflexivity.
Defined.

Lemma getitem_raise {V} (row : list (str * V)) key e :
  getitem row key = Raise e -> e = KeyError key.
Proof.
  induction row as [|[k v] row IH]; simpl.
  - congruence.
  - destruct (str_eqb k key); [discriminate | exact IH].
Qed.

Lemma getitem_ok_in {V} (row : list (str * V)) key v :
  getitem row key = Ok v -> In key (map fst row).
Proof.
  induction row as [|[k x] row IH]; simpl; [discriminate|].
  destruct (str_eqb k key) eqn:E; [|auto].
  apply str_eqb_eq in E. auto.
Qed.

Lemma combine_keys {V} (cols : list str) (r : list V) (key : str) :
  In key (map fst (combine cols r)) -> In key cols.
Proof.
  revert r. induction cols as [|c cols IH]; intros [|x r]; simpl; try contradiction.
  intros [H|H]; eauto.
Qed.

Lemma theme_line_missing cols (r : list cell) lines h :
  ~ In (py "code") cols \/ ~ In (py "definition") cols ->
  exists key, (key = py "code" \/ key = py "definition")
              /\ theme_line lines (combine cols r) h = (Raise (KeyError key), h).
Proof.
  intros H. unfold theme_line, bind, lift, ret.
  destruct (getitem (combine cols r) (py "code")) as [c|e] eqn:Ec.
  - destruct (getitem (combine cols r) (py "definition")) as [d|e] eqn:Ed.
    + exfalso. apply getitem_ok_in, combine_keys in Ec.
      apply getitem_ok_in, combine_keys in Ed. tauto.
    + apply getitem_raise in Ed. subst e. eauto.
  - apply getitem_raise in Ec. subst e. eauto.
Qed.

(** The rows loop calls no collaborator, and raises nothing but [KeyError]. *)
Lemma theme_lines_pure rows lines h :
  snd (for_fold rows lines theme_line h) = h
  /\ forall e, fst (for_fold rows lines theme_line h) = Raise e ->
               exists key, e = KeyError key.
Proof.
  revert lines. induction rows as [|row rows IH]; intros lines.
  - simpl. split; [reflexivity | discriminate].
  - cbn [for_fold]. unfold bind, theme_line, lift, ret. cbv beta.
    destruct (getitem row (py "code")) as [c|e] eqn:Ec.
    + destruct (getitem row (py "definition")) as [d|e] eqn:Ed.
      * apply IH.
      * simpl. split; [reflexivity|]. intros e' E. inversion E; subst.
        apply getitem_raise in Ed. eauto.
    + simpl. split; [reflexivity|]. intros e' E. inversion E; subst.
      apply getitem_raise in Ec. eauto.
Qed.

(** C6 does not hold as stated: a table with a header and no rows has no
    row to look a column up in, so the missing columns go unnoticed, the
    codebook text is empty and the run goes on to call the model. *)
Lemma missing_column_empty_table_counterexample :
  let env := demo_env (Ok headers_only) [py "p01.txt"] (py "[]") (Some (JArr [])) in
  let run := process_folder env (py "transcripts") (py "themes.csv") (py "coded_output") [] in
  ~ In (py "code") (columns headers_only)
  /\ ~ In (py "definition") (columns headers_only)
  /\ load_themes env (py "themes.csv") [] = (Ok [], [ReadCsv (py "themes.csv")])
  /\ fst run = Ok tt
  /\ existsb is_chat (snd run) = true.
Proof.
  intros env run. split; [|split; [|split; [|split]]].
  - cbn. intros [H|[H|[]]]; discriminate H.
  - cbn. intros [H|[H|[]]]; discriminate H.
  - reflexivity.
  - vm_compute. reflexivity.
  - vm_compute. reflexivity.
Qed.

(** C6, amended. When the codebook table has at least one row and lacks the
    column [code] or the column [definition], [load_themes] raises a
    [KeyError] for one of them at the first row; in [process_folder] this
    happens right after the output directory is made and the table is read:
    the directory is not listed, no transcript is loaded, the model is not
    called, nothing is written. *)
Theorem missing_column_aborts_run env transcript_dir theme_path output_dir h df :
  makedirs env h output_dir = Ok tt ->
  table_at env (h ++ [Makedirs output_dir]) theme_path = Ok df ->
  rows df <> [] ->
  ~ In (py "code") (columns df) \/ ~ In (py "definition") (columns df) ->
  exists key,
    (key = py "code" \/ key = py "definition")
    /\ load_themes env theme_path (h ++ [Makedirs output_dir])
       = (Raise (KeyError key), (h ++ [Makedirs output_dir]) ++ [read_event theme_path])
    /\ process_folder env transcript_dir theme_path output_dir h
       = (Raise (KeyError key), (h ++ [Makedirs output_dir]) ++ [read_event theme_path]).
Proof.
  intros Hm Ht Hr Hc.
  destruct (rows df) as [|r rs] eqn:Er; [congruence|].
  destruct (@theme_line_missing (columns df) r []
              ((h ++ [Makedirs output_dir]) ++ [read_event theme_path]) Hc)
    as [key [Hk Hl]].
  assert (L : load_themes env theme_path (h ++ [Makedirs output_dir])
              = (Raise (KeyError key), (h ++ [Makedirs output_dir]) ++ [read_event theme_path])).
  { rewrite load_themes_read, Ht. unfold iter_rows. rewrite Er.
    cbn [map for_fold]. unfold bind at 1. rewrite Hl. reflexivity. }
  exists key. split; [exact Hk|]. split; [exact L|].
  unfold process_folder. unfold bind at 1. unfold call at 1. rewrite Hm.
  unfold bind at 1. rewrite L. reflexivity.
Qed.

Lemma missing_column_aborts_run_witness :
  let env := demo_env (Ok misnamed_codebook) [py "p01.txt"] (py "[]") (Some (JArr [])) in
  exists key,
    (key = py "code" \/ key = py "definition")
    /\ load_themes env (py "themes.xlsx") ([] ++ [Makedirs (py "coded_output")])
       = (Raise (KeyError key),
          ([] ++ [Makedirs (py "coded_output")]) ++ [read_event (py "themes.xlsx")])
    /\ process_folder env (py "transcripts") (py "themes.xlsx") (py "coded_output") []
       = (Raise (KeyError key),
          ([] ++ [Makedirs (py "coded_output")]) ++ [read_event (py "themes.xlsx")]).
Proof.
  intros env.
  apply (@missing_column_aborts_run env (py "transcripts") (py "themes.xlsx")
           (py "coded_output") [] misnamed_codebook).
  - reflexivity.
  - reflexivity.
  - discriminate.
  - left. cbn. intros [H|[H|[]]]; discriminate H.
Defined.

(** C7 does not hold as stated: a codebook path ending in ".json" is handed
    to the CSV reader, and its rows are formatted like any other's. *)
Lemma load_themes_unrecognized_extension_counterexample :
  let env := demo_env (Ok demo_codebook) [] [] None in
  endswith (py "themes.json") (py ".xlsx") = false
  /\ endswith (py "themes.json") (py ".csv") = false
  /\ load_themes env (py "themes.json") []
     = (Ok (py "- A: foo" ++ [nl] ++ py "- B: bar"), [ReadCsv (py "themes.json")]).
Proof. intros env. split; [|split]; reflexivity. Qed.

(** C7, amended. Every codebook path that does not end in ".xlsx", whatever
    its extension, is read with the CSV reader: that one call is made, its
    table is formatted as for a ".csv" path, and the only errors are the
    reader's own and a [KeyError] for a missing column. *)
Theorem load_themes_other_extension_reads_csv env theme_path h :
  endswith theme_path (py ".xlsx") = false ->
  snd (load_themes env theme_path h) = h ++ [ReadCsv theme_path]
  /\ (forall df entries,
        read_csv env h theme_path = Ok df ->
        Forall2 theme_row (iter_rows df) entries ->
        fst (load_themes env theme_path h) = Ok (join [nl] (map bullet entries)))
  /\ (forall e,
        fst (load_themes env theme_path h) = Raise e ->
        read_csv env h theme_path = Raise e \/ exists key, e = KeyError key).
Proof.
  intros E. rewrite load_themes_read. unfold table_at, read_event. rewrite E.
  destruct (read_csv env h theme_path) as [df|e0] eqn:Hr.
  - pose proof (theme_lines_pure (iter_rows df) [] (h ++ [ReadCsv theme_path])) as [Hs He].
    split; [|split].
    + destruct (for_fold _ _ _ _) as [[lines|e] h']; exact Hs.
    + intros df' entries Hdf F. inversion Hdf; subst df'.
      now rewrite (theme_lines_ok _ _ F).
    + intros e Hf. right. apply He.
      destruct (for_fold _ _ _ _) as [[lines|e'] h']; [discriminate|].
      simpl in Hf |- *. congruence.
  - split; [reflexivity|]. split; [discriminate|].
    intros e Hf. left. simpl in Hf. congruence.
Qed.

Lemma load_themes_other_extension_reads_csv_witness :
  let env := demo_env (Ok demo_codebook) [] [] None in
  snd (load_themes env (py "themes.json") []) = [] ++ [ReadCsv (py "themes.json")]
  /\ fst (load_themes env (py "themes.json") [])
     = Ok (join [nl] (map bullet [(CStr (py "A"), CStr (py "foo"));
                                  (CStr (py "B"), CStr (py "bar"))])).
Proof.
  intros env.
  pose proof (@load_themes_other_extension_reads_csv env (py "themes.json") [] eq_refl)
    as [Hs [Hok _]].
  split; [exact Hs|].
  apply (Hok demo_codebook); [reflexivity | repeat constructor].
Defined.

(* ================================================================== *)
(** * The coder and the output table *)
(* ================================================================== *)

Lemma text_record_row cols fields row :
  text_record cols (JObj fields) = Some row ->
  length row = length cols
  /\ forall k, In k cols -> getitem (combine cols row) k = getitem fields k.
Proof.
  unfold text_record.
  destruct (forallb _ fields && Nat.eqb (length fields) (length cols)); [|discriminate].
  revert row. induction cols as [|c cols IH]; intros row H; cbn [fold_right] in H.
  - inversion H; subst. split; [reflexivity | intros k []].
  - destruct (getitem fields c) as [v|] eqn:Ec; [|discriminate].
    destruct (fold_right _ _ cols) as [vs|]; [|discriminate].
    inversion H; subst. destruct (IH vs eq_refl) as [Hlen Hget].
    split; [simpl; congruence|].
    intros k Hk. cbn [combine getitem].
    destruct (str_eqb c k) eqn:E.
    + apply str_eqb_eq in E. subst k. now rewrite Ec.
    + destruct Hk as [->|Hk]; [rewrite str_eqb_refl in E; discriminate | auto].
Qed.

Lemma text_record_total cols fields :
  forallb (fun kv => is_text (snd kv)) fields = true ->
  length fields = length cols ->
  (forall c, In c cols -> exists v, getitem fields c = Ok v) ->
  exists row, text_record cols (JObj fields) = Some row.
Proof.
  intros Ht Hl Hc. unfold text_record.
  change (fun kv : str * json => match snd kv with JStr _ => true | _ => false end)
    with (fun kv : str * json => is_text (snd kv)).
  rewrite Ht, Hl, Nat.eqb_refl. cbn [andb].
  clear Hl. induction cols as [|c cols IH]; cbn [fold_right]; [eauto|].
  destruct (Hc c (or_introl eq_refl)) as [v Hv]. rewrite Hv.
  destruct IH as [row Hrow]; [intros; apply Hc; right; assumption|].
  rewrite Hrow. eauto.
Qed.

(** An object with three fields, among them the three keys, has exactly
    those keys, once each, and text under each. *)
Lemma getitem_in {V} (row : list (str * V)) key v :
  getitem row key = Ok v -> In (key, v) row.
Proof.
  induction row as [|[k x] row IH]; simpl; [discriminate|].
  destruct (str_eqb k key) eqn:E; [|auto].
  apply str_eqb_eq in E. intros H. inversion H; subst. auto.
Qed.

Lemma coded_quote_fields fields q :
  length fields = 3 ->
  getitem fields (py "quote") = Ok (JStr (quote q)) ->
  getitem fields (py "theme") = Ok (JStr (theme q)) ->
  getitem fields (py "explanation") = Ok (JStr (explanation q)) ->
  forallb (fun kv => is_text (snd kv)) fields = true
  /\ nodupb (map fst fields) = true
  /\ (forall k, In k (map fst fields) -> In k quote_keys).
Proof.
  destruct fields as [|[k1 v1] [|[k2 v2] [|[k3 v3] [|? ?]]]]; try discriminate.
  intros _ Hq Ht He.
  apply getitem_in in Hq, Ht, He. cbn [In] in Hq, Ht, He.
  destruct Hq as [Hq|[Hq|[Hq|[]]]]; inversion Hq; subst; clear Hq;
    destruct Ht as [Ht|[Ht|[Ht|[]]]]; inversion Ht; subst; clear Ht;
    destruct He as [He|[He|[He|[]]]]; inversion He; subst; clear He;
    (split; [reflexivity|]; split; [vm_compute; reflexivity|];
     intros k Hk; cbn [map fst In] in Hk; unfold quote_keys; cbn [In]; tauto).
Qed.

Lemma quote_keys_found fields q k :
  getitem fields (py "quote") = Ok (JStr (quote q)) ->
  getitem fields (py "theme") = Ok (JStr (theme q)) ->
  getitem fields (py "explanation") = Ok (JStr (explanation q)) ->
  In k quote_keys -> exists v, getitem fields k = Ok v.
Proof.
  intros Hq Ht He Hk. unfold quote_keys in Hk. cbn [In] in Hk.
  destruct Hk as [<-|[<-|[<-|[]]]]; eauto.
Qed.

(** The rows built for a list of coded quotes, under columns that are the
    three keys in some order. *)
Lemma text_records_quotes cols items quotes :
  length cols = 3 ->
  (forall k, In k cols -> In k quote_keys) ->
  (forall k, In k quote_keys -> In k cols) ->
  Forall2 coded_quote items quotes ->
  exists rs, text_records cols items = Some rs
             /\ Forall2 quote_row (map (combine cols) rs) quotes.
Proof.
  intros Hl Hsub Hsup F.
  induction F as [|item q items quotes Hq _ [rs [Hrs Hrows]]].
  - exists []. split; [reflexivity | constructor].
  - destruct Hq as (fields & -> & Hlen & Gq & Gt & Ge).
    destruct (coded_quote_fields fields q Hlen Gq Gt Ge) as [Htext _].
    destruct (@text_record_total cols fields Htext) as [row Hrow].
    + congruence.
    + intros c Hc. eapply quote_keys_found; eauto.
    + exists (row :: rs). cbn [text_records]. rewrite Hrow, Hrs.
      split; [reflexivity|]. cbn [map]. constructor; [|exact Hrows].
      destruct (text_record_row _ _ Hrow) as [Hlr Hget].
      unfold quote_row. rewrite length_combine, Hlr, Hl.
      rewrite !Hget by (apply Hsup; unfold quote_keys; cbn [In]; auto).
      auto.
Qed.

Lemma nodupb_spec ks : nodupb ks = true -> NoDup ks.
Proof.
  induction ks as [|k ks IH]; simpl; intros H; constructor.
  - apply andb_prop in H. destruct H as [H _]. apply negb_true_iff in H.
    intros Hin. assert (existsb (str_eqb k) ks = true); [|congruence].
    apply existsb_exists. exists k. split; [assumption | apply str_eqb_refl].
  - apply andb_prop in H. tauto.
Qed.

(** The table polars builds from a list of coded quotes. *)
Lemma records_frame_quotes items quotes :
  Forall2 coded_quote items quotes ->
  exists df, records_frame items = Some df
             /\ height df = length items
             /\ Forall2 quote_row (iter_rows df) quotes.
Proof.
  intros F. inversion F as [|item q items' quotes' Hq Frest]; subst.
  - exists (mkFrame [] []). repeat split. constructor.
  - rename F into F'. destruct Hq as (fields & -> & Hlen & Gq & Gt & Ge).
    destruct (coded_quote_fields fields q Hlen Gq Gt Ge) as [_ [Hnd Hsub]].
    assert (Hl : length (map fst fields) = 3) by now rewrite length_map.
    assert (Hsup : forall k, In k quote_keys -> In k (map fst fields)).
    { intros k Hk. destruct (quote_keys_found fields q Gq Gt Ge Hk) as [v Hv].
      exact (getitem_ok_in _ _ Hv). }
    destruct (@text_records_quotes (map fst fields) _ _ Hl Hsub Hsup F')
      as [rs [Hrs Hrows]].
    unfold records_frame.
    destruct (map fst fields) as [|c cols] eqn:Ec; [discriminate|].
    rewrite Hnd, Hrs. eexists. split; [reflexivity|]. split; [|exact Hrows].
    unfold height. cbn [rows].
    apply Forall2_length in Hrows. apply Forall2_length in F'.
    rewrite length_map in Hrows. congruence.
Qed.

Lemma writes_app a b : writes (a ++ b) = writes a ++ writes b.
Proof.
  induction a as [|ev a IH]; simpl; [reflexivity|].
  destruct ev; simpl; now rewrite IH.
Qed.

(** A computation that ended after logging one call that is not a write. *)
Ltac one_call_no_write :=
  let H := fresh "H" in
  intros H; inversion H; subst; rewrite writes_app; simpl; now rewrite app_nil_r.

Lemma load_transcript_writes env path h r h' :
  load_transcript env path h = (r, h') -> writes h' = writes h.
Proof.
  unfold load_transcript, bind, call, ret, raise.
  destruct (endswith path (py ".txt")); [one_call_no_write|].
  destruct (endswith path (py ".docx")).
  - destruct (docx_paragraphs env h path); one_call_no_write.
  - intros H; inversion H; subst. reflexivity.
Qed.

Lemma coder_run env text theme_prompt h content :
  chat env h (py "mistral") (messages text theme_prompt) = Ok content ->
  code_transcript_with_themes env text theme_prompt h
  = (match json_loads env (strip content) with
     | Some v => Ok v
     | None => Raise JSONDecodeError
     end, h ++ [Chat (py "mistral") (messages text theme_prompt)]).
Proof.
  intros Hc. unfold code_transcript_with_themes, bind, call. rewrite Hc.
  destruct (json_loads env (strip content)); reflexivity.
Qed.

Lemma process_entry_run env transcript_dir theme_prompt output_dir filename h :
  supported filename = true ->
  process_entry env transcript_dir theme_prompt output_dir filename h
  = (raw <- load_transcript env (Path.join transcript_dir filename) ;;
     coded_items <- code_transcript_with_themes env (extract_interviewee_text raw) theme_prompt ;;
     df <- new_frame env coded_items ;;
     call (WriteCsv (Path.join output_dir (out_name filename)) df)
          (fun h => write_csv env h (Path.join output_dir (out_name filename)) df) ;;
     call (Print (py "Saved " ++ [arrow] ++ py " "
                  ++ Path.join output_dir (out_name filename))) (fun _ => Ok tt))
    (h ++ [Print ([nl] ++ py "=== Processing " ++ filename ++ py " ===")]).
Proof.
  intros Hs. unfold process_entry. rewrite Hs. reflexivity.
Qed.

(** C9. When the model's reply, once stripped, parses to an array of objects
    with the text fields [quote], [theme], [explanation], the coder returns
    that array and the table built from it has one row per element, holding
    the element's three values; that table is what is written under the
    transcript's output name.  When the reply is not JSON the coder raises
    the decode error right after the model call: no table is built and no
    file is written for the transcript. *)
Theorem coder_reply_to_table env text theme_prompt h content :
  chat env h (py "mistral") (messages text theme_prompt) = Ok content ->
  let h1 := h ++ [Chat (py "mistral") (messages text theme_prompt)] in
  (forall items quotes,
      json_loads env (strip content) = Some (JArr items) ->
      Forall2 coded_quote items quotes ->
      code_transcript_with_themes env text theme_prompt h = (Ok (JArr items), h1)
      /\ exists df,
          (forall h', new_frame env (JArr items) h' = (Ok df, h'))
          /\ height df = length items
          /\ Forall2 quote_row (iter_rows df) quotes
          /\ forall transcript_dir output_dir filename h0 raw,
              supported filename = true ->
              load_transcript env (Path.join transcript_dir filename)
                (h0 ++ [Print ([nl] ++ py "=== Processing " ++ filename ++ py " ===")])
              = (Ok raw, h) ->
              extract_interviewee_text raw = text ->
              write_csv env h1 (Path.join output_dir (out_name filename)) df = Ok tt ->
              process_entry env transcript_dir theme_prompt output_dir filename h0
              = (Ok tt,
                 h1 ++ [WriteCsv (Path.join output_dir (out_name filename)) df;
                        Print (py "Saved " ++ [arrow] ++ py " "
                               ++ Path.join output_dir (out_name filename))]))
  /\
  (json_loads env (strip content) = None ->
   code_transcript_with_themes env text theme_prompt h = (Raise JSONDecodeError, h1)
   /\ forall transcript_dir output_dir filename h0 raw,
       supported filename = true ->
       load_transcript env (Path.join transcript_dir filename)
         (h0 ++ [Print ([nl] ++ py "=== Processing " ++ filename ++ py " ===")])
       = (Ok raw, h) ->
       extract_interviewee_text raw = text ->
       process_entry env transcript_dir theme_prompt output_dir filename h0
       = (Raise JSONDecodeError, h1)
       /\ writes h1 = writes h0).
Proof.
  intros Hc h1. pose proof (coder_run env text theme_prompt h Hc) as Hrun.
  fold h1 in Hrun. split.
  - intros items quotes Hj F. rewrite Hj in Hrun. split; [exact Hrun|].
    destruct (records_frame_quotes F) as [df [Hdf [Hh Hrows]]].
    exists df. split; [|split; [exact Hh|split; [exact Hrows|]]].
    + intros h'. unfold new_frame. rewrite Hdf. reflexivity.
    + intros td od filename h0 raw Hs Hl Ht Hw.
      rewrite (process_entry_run env td theme_prompt od filename h0 Hs).
      unfold bind at 1. rewrite Hl, Ht.
      unfold bind at 1. rewrite Hrun.
      unfold bind at 1. unfold new_frame. rewrite Hdf. unfold ret at 1.
      unfold bind, call. rewrite Hw. rewrite <- app_assoc. reflexivity.
  - intros Hj. rewrite Hj in Hrun. split; [exact Hrun|].
    intros td od filename h0 raw Hs Hl Ht.
    rewrite (process_entry_run env td theme_prompt od filename h0 Hs).
    unfold bind at 1. rewrite Hl, Ht.
    unfold bind at 1. rewrite Hrun. split; [reflexivity|].
    unfold h1. rewrite writes_app, (load_transcript_writes _ _ _ Hl), writes_app.
    simpl. now rewrite !app_nil_r.
Qed.

Lemma coder_reply_to_table_witness :
  let good := demo_env (Ok demo_codebook) [py "p01.txt"] demo_reply_text (Some demo_reply) in
  let bad := demo_env (Ok demo_codebook) [py "p01.txt"] (py "Sorry, no.") None in
  let banner := [Print ([nl] ++ py "=== Processing p01.txt ===")] in
  let h := banner ++ [Open (py "transcripts/p01.txt")] in
  let h1 := h ++ [Chat (py "mistral") (messages (py "hello") (py "- A: foo"))] in
  (code_transcript_with_themes good (py "hello") (py "- A: foo") h = (Ok demo_reply, h1)
   /\ exists df,
       (forall h', new_frame good demo_reply h' = (Ok df, h'))
       /\ height df = 1
       /\ Forall2 quote_row (iter_rows df) [mkQuote (py "hello") (py "A") (py "greeting")])
  /\ (process_entry bad (py "transcripts") (py "- A: foo") (py "coded_output") (py "p01.txt") []
      = (Raise JSONDecodeError, h1)
      /\ writes h1 = writes []).
Proof.
  intros good bad banner h h1. split.
  - destruct (proj1 (@coder_reply_to_table good (py "hello") (py "- A: foo") h
                       demo_reply_text eq_refl)
                [demo_item (py "hello") (py "A") (py "greeting")]
                [mkQuote (py "hello") (py "A") (py "greeting")] eq_refl)
      as [Hrun [df [Hnew [Hh [Hrows _]]]]].
    + constructor; [|constructor].
      exists [(py "quote", JStr (py "hello")); (py "theme", JStr (py "A"));
              (py "explanation", JStr (py "greeting"))].
      repeat split.
    + split; [exact Hrun|]. exists df. auto.
  - apply (proj2 (proj2 (@coder_reply_to_table bad (py "hello") (py "- A: foo") h
                           (py "Sorry, no.") eq_refl) eq_refl)
             (py "transcripts") (py "coded_output") (py "p01.txt") [] (py "P: hello"));
      reflexivity.
Defined.

(* ================================================================== *)
(** * The folder run *)
(* ================================================================== *)

Lemma coder_writes env text theme_prompt h r h' :
  code_transcript_with_themes env text theme_prompt h = (r, h') -> writes h' = writes h.
Proof.
  unfold code_transcript_with_themes, bind, call, ret, raise.
  destruct (chat env h _ _) as [content|e]; [|one_call_no_write].
  destruct (json_loads env (strip content)); one_call_no_write.
Qed.

Lemma new_frame_trace env coded_items h r h' :
  new_frame env coded_items h = (r, h') -> h' = h.
Proof.
  unfold new_frame, lift, ret.
  destruct coded_items; try (intros H; inversion H; reflexivity).
  destruct (records_frame items); intros H; inversion H; reflexivity.
Qed.

(** An entry without a supported extension is passed over: nothing is
    loaded, filtered, sent to the model or written. *)
Lemma process_entry_skipped env transcript_dir theme_prompt output_dir filename h :
  supported filename = false ->
  process_entry env transcript_dir theme_prompt output_dir filename h = (Ok tt, h).
Proof. intros Hs. unfold process_entry. rewrite Hs. reflexivity. Qed.

(** A supported entry that is processed to the end causes one write, to
    [coded_<stem>.csv] in the output directory. *)
Lemma process_entry_write env transcript_dir theme_prompt output_dir filename h h' :
  supported filename = true ->
  process_entry env transcript_dir theme_prompt output_dir filename h = (Ok tt, h') ->
  exists df, writes h' = writes h ++ [(Path.join output_dir (out_name filename), df)].
Proof.
  intros Hs. rewrite (process_entry_run env transcript_dir theme_prompt output_dir filename h Hs).
  unfold bind at 1.
  destruct (load_transcript env _ _) as [[raw|e] h1] eqn:Hl; [|discriminate].
  unfold bind at 1.
  destruct (code_transcript_with_themes env _ _ h1) as [[items|e] h2] eqn:Hc; [|discriminate].
  unfold bind at 1.
  destruct (new_frame env items h2) as [[df|e] h3] eqn:Hf; [|discriminate].
  apply new_frame_trace in Hf. subst h3.
  unfold bind, call.
  destruct (write_csv env h2 _ df); [|discriminate].
  intros H. inversion H; subst. exists df.
  rewrite !writes_app, (coder_writes _ _ _ _ Hc), (load_transcript_writes _ _ _ Hl).
  rewrite writes_app. simpl. now rewrite !app_nil_r.
Qed.

Lemma for_each_entries_writes env transcript_dir theme_prompt output_dir entries h h' :
  for_each entries (process_entry env transcript_dir theme_prompt output_dir) h = (Ok tt, h') ->
  map fst (writes h')
  = map fst (writes h)
    ++ map (fun f => Path.join output_dir (out_name f)) (filter supported entries).
Proof.
  revert h. induction entries as [|f entries IH]; intros h; cbn [for_each].
  - unfold ret. intros H; inversion H; subst. simpl. now rewrite app_nil_r.
  - unfold bind at 1.
    destruct (process_entry env transcript_dir theme_prompt output_dir f h)
      as [[[]|e] h1] eqn:Hp; [|discriminate].
    intros H. rewrite (IH _ H). cbn [filter].
    destruct (supported f) eqn:Hs.
    + destruct (process_entry_write _ _ _ _ _ _ Hs Hp) as [df Hw].
      rewrite Hw, map_app. simpl. now rewrite <- app_assoc.
    + rewrite (process_entry_skipped env transcript_dir theme_prompt output_dir f h Hs) in Hp.
      inversion Hp; subst. reflexivity.
Qed.

Lemma load_themes_writes env theme_path h :
  writes (snd (load_themes env theme_path h)) = writes h.
Proof.
  rewrite load_themes_read.
  assert (W : writes (h ++ [read_event theme_path]) = writes h).
  { rewrite writes_app. unfold read_event.
    destruct (endswith theme_path (py ".xlsx")); simpl; now rewrite app_nil_r. }
  destruct (table_at env h theme_path) as [df|e]; [|exact W].
  pose proof (proj1 (theme_lines_pure (iter_rows df) [] (h ++ [read_event theme_path]))) as Hs.
  destruct (for_fold _ _ _ _) as [[lines|e] h']; simpl in Hs |- *; subst h'; exact W.
Qed.

(** A run that ends well has written once per supported entry of the
    listing, in listing order, each time to [coded_<stem>.csv]. *)
Lemma process_folder_one_write_per_entry env transcript_dir theme_path output_dir h h' :
  process_folder env transcript_dir theme_path output_dir h = (Ok tt, h') ->
  exists hl entries,
    listdir env hl transcript_dir = Ok entries
    /\ map fst (writes h')
       = map fst (writes h)
         ++ map (fun f => Path.join output_dir (out_name f)) (filter supported entries).
Proof.
  unfold process_folder. unfold bind at 1. unfold call at 1.
  destruct (makedirs env h output_dir); [|discriminate].
  unfold bind at 1.
  pose proof (load_themes_writes env theme_path (h ++ [Makedirs output_dir])) as Hw.
  destruct (load_themes env theme_path (h ++ [Makedirs output_dir]))
    as [[theme_prompt|e] h1]; [|discriminate].
  simpl in Hw. unfold bind at 1. unfold call at 1.
  destruct (listdir env h1 transcript_dir) as [entries|e] eqn:Hl; [|discriminate].
  intros H. exists h1, entries. split; [exact Hl|].
  rewrite (for_each_entries_writes _ _ _ _ _ _ H).
  rewrite writes_app, Hw, writes_app. simpl. now rewrite !app_nil_r.
Qed.

(** The directory of the specification: one ".txt", one ".docx" and one
    ".md" with different stems give two output files. *)
Example three_entries_two_outputs :
  let env := demo_env (Ok demo_codebook) [py "p01.txt"; py "p02.docx"; py "notes.md"]
               demo_reply_text (Some demo_reply) in
  let run := main env [] in
  fst run = Ok tt
  /\ output_files (snd run)
     = [py "coded_output/coded_p01.csv"; py "coded_output/coded_p02.csv"].
Proof. vm_compute. split; reflexivity. Qed.

(** C8 fails on the code. The output name keeps only the stem, so "a.txt"
    and "a.docx" are both written to "coded_a.csv": the directory with
    "a.txt", "a.docx" and "notes.md" has two supported entries and the run
    makes two writes, but to one path, the second overwriting the first;
    one output file results, not two. *)
Theorem same_stem_transcripts_share_output :
  let entries := [py "a.txt"; py "a.docx"; py "notes.md"] in
  let env := demo_env (Ok demo_codebook) entries demo_reply_text (Some demo_reply) in
  let run := main env [] in
  length (filter supported entries) = 2
  /\ fst run = Ok tt
  /\ map fst (writes (snd run))
     = [py "coded_output/coded_a.csv"; py "coded_output/coded_a.csv"]
  /\ output_files (snd run) = [py "coded_output/coded_a.csv"].
Proof. vm_compute. repeat split. Qed.

(* ================================================================== *)
(** * Further properties of the speaker filter *)
(* ================================================================== *)

Lemma lstrip_all_spaces ws : spaces ws -> lstrip ws = [].
Proof. induction 1 as [|c ws Hc _ IH]; simpl; [|rewrite Hc]; auto. Qed.

Lemma lstrip_head x t s : lstrip s = x :: t -> isspace x = false.
Proof.
  induction s as [|c s IH]; simpl; [discriminate|].
  destruct (isspace c) eqn:E; [exact IH|]. intros H. inversion H; subst. exact E.
Qed.

Lemma lstrip_nonspace x t : isspace x = false -> lstrip (x :: t) = x :: t.
Proof. intros H. simpl. now rewrite H. Qed.

Lemma lstrip_idem s : lstrip (lstrip s) = lstrip s.
Proof.
  destruct (lstrip s) as [|x t] eqn:E; [reflexivity|].
  apply lstrip_nonspace. exact (lstrip_head _ E).
Qed.

Lemma rstrip_spaces s ws : spaces ws -> rstrip (s ++ ws) = rstrip s.
Proof.
  intros H. unfold rstrip. rewrite rev_app_distr.
  rewrite lstrip_spaces; [reflexivity|]. apply Forall_rev. exact H.
Qed.

Lemma rstrip_nil : rstrip [] = [].
Proof. reflexivity. Qed.

Lemma rstrip_cons_nonspace x t : isspace x = false -> rstrip (x :: t) = x :: rstrip t.
Proof. intros H. exact (@rstrip_app_nonspace [] x t H). Qed.

(** Stripping the left end and the right end commute. *)
Lemma lstrip_rstrip s : lstrip (rstrip s) = rstrip (lstrip s).
Proof.
  destruct (lstrip_split s) as [ws [E F]].
  destruct (lstrip s) as [|x t] eqn:El.
  - rewrite app_nil_r in E. subst s.
    replace ws with ([] ++ ws) by reflexivity.
    rewrite rstrip_spaces by exact F. reflexivity.
  - pose proof (lstrip_head _ El) as Hx. rewrite E.
    rewrite rstrip_app_nonspace by exact Hx.
    rewrite lstrip_spaces by exact F.
    rewrite lstrip_nonspace by exact Hx.
    now rewrite rstrip_cons_nonspace.
Qed.

(** Whitespace around a line does not matter to [strip]. *)
Lemma strip_pad a s b : spaces a -> spaces b -> strip (a ++ s ++ b) = strip s.
Proof.
  intros Ha Hb. unfold strip. rewrite lstrip_spaces by exact Ha.
  rewrite <- !lstrip_rstrip. now rewrite rstrip_spaces.
Qed.

Lemma rstrip_idem s : rstrip (rstrip s) = rstrip s.
Proof. unfold rstrip. now rewrite rev_involutive, lstrip_idem. Qed.

Lemma strip_idem s : strip (strip s) = strip s.
Proof.
  unfold strip. now rewrite lstrip_rstrip, rstrip_idem, lstrip_idem.
Qed.

Lemma rstrip_strip s : rstrip (strip s) = strip s.
Proof. unfold strip. apply rstrip_idem. Qed.

(** A non-empty tail of a right-stripped string is right-stripped. *)
Lemma rstrip_suffix a b : rstrip (a ++ b) = a ++ b -> rstrip b = b.
Proof.
  destruct (rev b) as [|y t] eqn:Eb.
  - apply (f_equal (@rev char)) in Eb. rewrite rev_involutive in Eb. now subst b.
  - unfold rstrip. rewrite rev_app_distr, Eb. intros H.
    apply (f_equal (@rev char)) in H. rewrite !rev_involutive, rev_app_distr, Eb in H.
    destruct (isspace y) eqn:Hy.
    + exfalso. cbn [app lstrip] in H. rewrite Hy in H.
      apply (f_equal (@length char)) in H.
      pose proof (lstrip_length (t ++ rev a)). simpl in H. lia.
    + rewrite lstrip_nonspace by exact Hy. rewrite <- Eb. apply rev_involutive.
Qed.

Lemma lstrip_incl x s : In x (lstrip s) -> In x s.
Proof.
  destruct (lstrip_split s) as [ws [E _]]. intros H. rewrite E.
  apply in_or_app. now right.
Qed.

Lemma rstrip_incl x s : In x (rstrip s) -> In x s.
Proof.
  unfold rstrip. intros H. apply in_rev in H. apply lstrip_incl in H.
  now apply in_rev.
Qed.

Lemma strip_incl x s : In x (strip s) -> In x s.
Proof. intros H. apply lstrip_incl, rstrip_incl. exact H. Qed.

Lemma split_lines sep s : Forall (fun l => ~ In sep l) (split sep s).
Proof.
  induction s as [|c s IH]; simpl.
  - constructor; [intros [] | constructor].
  - destruct (N.eqb_spec c sep) as [->|Hc].
    + constructor; [intros [] | exact IH].
    + destruct (split sep s) as [|l ls]; [repeat constructor; simpl; intuition|].
      inversion IH; subst. constructor; [|assumption].
      simpl. intros [H|H]; [congruence | auto].
Qed.

(** What [keep] keeps, spelled out. *)
Lemma keep_interviewee_line line content :
  interviewee_line line content -> keep line = Some (lstrip content).
Proof.
  intros (lab & w & ws & d & Hin & Hsp & Hws & Hd & E).
  unfold keep. rewrite E.
  assert (Hm : label_match interviewee_labels (w ++ ws ++ d :: content) = Some content).
  { apply label_match_exact with (w := lab);
      [exact interviewee_labels_ok | assumption |].
    unfold label_then_delimiter. rewrite (spells_ci_prefix _ Hsp).
    apply after_label_intro; assumption. }
  destruct (proj1 (Forall_forall _ _) interviewee_labels_ok lab Hin) as [Hne _].
  destruct w as [|x w]; [inversion Hsp; congruence|].
  cbn [app] in Hm |- *. now rewrite Hm.
Qed.

Lemma keep_inv line r :
  keep line = Some r -> exists content, interviewee_line line content /\ r = lstrip content.
Proof.
  unfold keep. destruct (strip line) as [|c l] eqn:E; [discriminate|].
  destruct (label_match interviewee_labels (c :: l)) as [r0|] eqn:Hm; [|discriminate].
  intros H. inversion H; subst. exists r0. split; [|reflexivity].
  destruct (label_match_found _ _ Hm) as [lab [Hin Hw]].
  unfold label_then_delimiter in Hw.
  destruct (ci_prefix lab (c :: l)) as [r1|] eqn:E1; [|discriminate].
  destruct (ci_prefix_spells _ _ E1) as [w [Ew Hsp]].
  destruct (after_label_shape _ Hw) as [ws [d [-> [Hws Hd]]]].
  exists lab, w, ws, d. unfold spaces. rewrite E. auto.
Qed.

(** X1. The loop keeps a line exactly when its stripped form is an
    interviewee label in any case, optional whitespace, a colon or hyphen
    and some content; what it appends is that content without its leading
    whitespace.  Every other line leaves [cleaned_lines] as it was. *)
Theorem filter_step_characterised acc line :
  (forall r, filter_step acc line = acc ++ [r]
             <-> exists content, interviewee_line line content /\ r = lstrip content)
  /\ ((forall content, ~ interviewee_line line content) -> filter_step acc line = acc).
Proof.
  rewrite filter_step_keep. split.
  - intros r. split.
    + destruct (keep line) as [r'|] eqn:E.
      * intros H. apply app_inv_head in H. inversion H; subst. now apply keep_inv.
      * intros H. apply (f_equal (@length str)) in H. rewrite length_app in H.
        simpl in H. lia.
    + intros [content [Hl ->]]. now rewrite (keep_interviewee_line Hl).
  - intros H. destruct (keep line) as [r|] eqn:E; [|reflexivity].
    destruct (keep_inv _ E) as [content [Hl _]]. exfalso. exact (H content Hl).
Qed.

Lemma filter_step_characterised_witness :
  filter_step [py "a"] (py "[pause]") = [py "a"].
Proof.
  apply (proj2 (filter_step_characterised [py "a"] (py "[pause]"))).
  intros content (lab & w & ws & d & Hin & Hsp & _ & _ & E).
  change (strip (py "[pause]")) with (py "[pause]") in E.
  destruct w as [|x w].
  - inversion Hsp; subst. unfold interviewee_labels in Hin. cbn [In] in Hin.
    repeat (destruct Hin as [Hin|Hin]; [discriminate Hin|]). contradiction.
  - inversion E; subst x. inversion Hsp as [|c x' lab' w' Hx Hrest]; subst.
    unfold interviewee_labels in Hin. cbn [In] in Hin.
    repeat (destruct Hin as [Hin|Hin];
            [inversion Hin; subst; vm_compute in Hx; discriminate Hx|]).
    contradiction.
Defined.

(** X2. A line that is an interviewee label in any case, optional
    whitespace, a delimiter and some content, with any indentation before
    the label, adds exactly the content stripped at both ends. *)
Theorem labelled_line_adds_stripped_content lab w pad ws d content acc :
  In lab interviewee_labels -> spells lab w ->
  spaces pad -> spaces ws -> atom_match delimiter d = true ->
  filter_step acc (pad ++ w ++ ws ++ d :: content) = acc ++ [strip content].
Proof.
  intros Hin Hsp Hpad Hws Hd. rewrite filter_step_keep.
  assert (Hl : interviewee_line (pad ++ w ++ ws ++ d :: content) (rstrip content)).
  { exists lab, w, ws, d. repeat (split; [assumption|]).
    unfold strip. rewrite lstrip_spaces by exact Hpad.
    destruct (proj1 (Forall_forall _ _) interviewee_labels_ok lab Hin) as [Hne Hlow].
    inversion Hsp as [|c x lab' w' Hx Hrest]; subst; [congruence|].
    apply Forall_inv in Hlow. cbn [app].
    rewrite lstrip_nonspace by exact (@letter_not_space c x Hlow Hx).
    change (x :: w' ++ ws ++ d :: content) with ((x :: w') ++ ws ++ d :: content).
    rewrite app_assoc, rstrip_app_nonspace by exact (delimiter_not_space _ Hd).
    now rewrite <- app_assoc. }
  rewrite (keep_interviewee_line Hl). unfold strip. now rewrite lstrip_rstrip.
Qed.

Lemma labelled_line_adds_stripped_content_witness :
  filter_step [] (py "  PARTICIPANT -  well, yes  ") = [] ++ [strip (py "  well, yes  ")].
Proof.
  apply (@labelled_line_adds_stripped_content (py "participant") (py "PARTICIPANT")
           (py "  ") (py " ") 45%N (py "  well, yes  ") []).
  - unfold interviewee_labels. cbn [In]. auto.
  - repeat constructor.
  - repeat constructor.
  - repeat constructor.
  - reflexivity.
Defined.

Lemma kept_trimmed lines :
  Forall (fun l => ~ In nl l) lines ->
  Forall (fun r => strip r = r /\ ~ In nl r) (kept lines).
Proof.
  induction 1 as [|l lines Hl _ IH]; simpl; [constructor|].
  destruct (keep l) as [r|] eqn:E; [|exact IH].
  constructor; [|exact IH].
  destruct (keep_inv _ E) as [content [(lab & w & ws & d & _ & _ & _ & _ & Es) ->]].
  assert (Hr : rstrip content = content).
  { apply rstrip_suffix with (a := w ++ ws ++ [d]).
    rewrite <- !app_assoc. cbn [app]. rewrite <- Es. apply rstrip_strip. }
  split.
  - unfold strip. rewrite lstrip_idem, <- lstrip_rstrip. now rewrite Hr.
  - intros Hn. apply Hl. apply strip_incl. rewrite Es.
    apply in_or_app. right. apply in_or_app. right. right. now apply lstrip_incl.
Qed.

(** X3. Every line of the filter's output is already stripped: it neither
    starts nor ends with whitespace. *)
Theorem extract_lines_are_stripped text :
  Forall (fun l => strip l = l) (split nl (extract_interviewee_text text)).
Proof.
  rewrite extract_kept.
  pose proof (kept_trimmed (split_lines nl text)) as H.
  destruct (kept (split nl text)) as [|r rs] eqn:E.
  - simpl. repeat constructor.
  - rewrite split_join.
    + eapply Forall_impl; [|exact H]. simpl. tauto.
    + eapply Forall_impl; [|exact H]. simpl. tauto.
Qed.

(** X4. The filter returns a strictly shorter text for every input but the
    empty one, which it returns unchanged. *)
Theorem extract_shortens text :
  (text = [] -> extract_interviewee_text text = [])
  /\ (text <> [] -> length (extract_interviewee_text text) < length text).
Proof.
  split; [intros ->; reflexivity|]. intros Hne.
  rewrite extract_kept.
  pose proof (join_split nl text) as Hs.
  pose proof (kept_length (split nl text)) as Hk.
  assert (L1 := join_length (kept (split nl text))).
  assert (L2 := join_length (split nl text)).
  rewrite Hs in L2.
  assert (Hpos : 0 < length text) by (destruct text; [congruence | simpl; lia]).
  destruct (kept (split nl text)) as [|k ks]; simpl in *; lia.
Qed.

Lemma extract_shortens_witness :
  length (extract_interviewee_text (py "P:")) < length (py "P:").
Proof. apply (proj2 (extract_shortens (py "P:"))). discriminate. Defined.

(** X5. Filtering two texts put one after the other on separate lines keeps
    the retained lines of the first followed by those of the second. *)
Theorem extract_of_concatenation a b :
  extract_interviewee_text (a ++ [nl] ++ b)
  = join [nl] (fold_left filter_step (split nl a) []
               ++ fold_left filter_step (split nl b) []).
Proof.
  unfold extract_interviewee_text. cbn [app].
  now rewrite split_app, !fold_filter_step, kept_app.
Qed.

Lemma join_crlf_lines l ls :
  Forall (fun x => ~ In nl x) (l :: ls) ->
  exists ls', split nl (join [cr; nl] (l :: ls)) = ls'
              /\ kept ls' = kept (l :: ls).
Proof.
  revert l. induction ls as [|l' ls IH]; intros l H.
  - exists [l]. split; [|reflexivity]. simpl. apply split_no_sep. now inversion H.
  - inversion H as [|? ? Hl Hrest]; subst.
    destruct (IH l' Hrest) as [ls' [Hs Hk]].
    exists ((l ++ [cr]) :: ls'). split.
    + change (join [cr; nl] (l :: l' :: ls))
        with (l ++ [cr; nl] ++ join [cr; nl] (l' :: ls)).
      replace (l ++ [cr; nl] ++ join [cr; nl] (l' :: ls))
        with ((l ++ [cr]) ++ nl :: join [cr; nl] (l' :: ls))
        by (rewrite <- app_assoc; reflexivity).
      rewrite split_app, Hs, split_no_sep; [reflexivity|].
      intros Hin. apply in_app_or in Hin. destruct Hin as [Hin|[Hin|[]]];
        [auto | discriminate Hin].
    + cbn [kept]. rewrite Hk. unfold keep.
      replace (l ++ [cr]) with ([] ++ l ++ [cr]) by reflexivity.
      rewrite strip_pad; [reflexivity | constructor | repeat constructor].
Qed.

(** X6. Line endings do not matter: a text whose lines are joined by
    carriage return and newline is filtered to the same output as the text
    with the lines joined by newline alone. *)
Theorem extract_ignores_carriage_returns lines :
  forallb single_line lines = true ->
  extract_interviewee_text (join [cr; nl] lines)
  = extract_interviewee_text (join [nl] lines).
Proof.
  intros H. rewrite !extract_kept, kept_split_join by exact H.
  destruct lines as [|l ls]; [reflexivity|].
  destruct (@join_crlf_lines l ls) as [ls' [Hs Hk]].
  - apply Forall_forall. intros x Hx. apply single_line_spec.
    exact (proj1 (forallb_forall _ _) H x Hx).
  - exact (f_equal (join [nl]) (eq_trans (f_equal kept Hs) Hk)).
Qed.

Lemma extract_ignores_carriage_returns_witness :
  extract_interviewee_text (join [cr; nl] [py "I: how?"; py "P: fine"; py "R - ok"])
  = extract_interviewee_text (join [nl] [py "I: how?"; py "P: fine"; py "R - ok"]).
Proof. apply extract_ignores_carriage_returns. reflexivity. Defined.

(* ================================================================== *)
(** * Output names *)
(* ================================================================== *)

Lemma rfind_from_notin c s i found :
  ~ In c s -> Path.rfind_from c s i found = found.
Proof.
  revert i found. induction s as [|x s IH]; intros i found H; simpl; [reflexivity|].
  destruct (N.eqb_spec x c) as [->|_]; [exfalso; apply H; now left|].
  apply IH. intros Hin. apply H. now right.
Qed.

Lemma rfind_from_last c a b i found :
  ~ In c b ->
  Path.rfind_from c (a ++ c :: b) i found = (i + Z.of_nat (length a))%Z.
Proof.
  intros Hb. revert i found. induction a as [|x a IH]; intros i found.
  - simpl. rewrite N.eqb_refl, rfind_from_notin by exact Hb. lia.
  - cbn [app Path.rfind_from length]. rewrite IH. lia.
Qed.

Lemma rfind_notin c s : ~ In c s -> Path.rfind c s = (-1)%Z.
Proof. apply rfind_from_notin. Qed.

Lemma rfind_last c a b :
  ~ In c b -> Path.rfind c (a ++ c :: b) = Z.of_nat (length a).
Proof. intros H. unfold Path.rfind. now rewrite rfind_from_last. Qed.

Lemma slice_prefix a b : Path.slice (a ++ b) 0 (Z.of_nat (length a)) = a.
Proof.
  unfold Path.slice. rewrite Z.sub_0_r, Nat2Z.id. cbn [Z.to_nat skipn].
  rewrite firstn_app, Nat.sub_diag, firstn_all. cbn [firstn]. apply app_nil_r.
Qed.

Lemma skipn_prefix (a b : str) : skipn (length a) (a ++ b) = b.
Proof.
  rewrite skipn_app, skipn_all, Nat.sub_diag. reflexivity.
Qed.

Lemma endswith_app s suffix : endswith (s ++ suffix) suffix = true.
Proof.
  unfold endswith. rewrite rev_app_distr.
  induction (rev suffix) as [|c r IH]; simpl; [destruct (rev s); reflexivity|].
  now rewrite N.eqb_refl.
Qed.

Lemma supported_ext stem ext :
  ext = py ".txt" \/ ext = py ".docx" -> supported (stem ++ ext) = true.
Proof.
  unfold supported. intros [-> | ->]; rewrite endswith_app;
    [reflexivity | apply orb_true_r].
Qed.

(** The split of a plain file name at its last dot. *)
Lemma splitext_plain stem e :
  ~ In Path.sep stem -> ~ In Path.sep e -> ~ In Path.extsep e ->
  Path.splitext (stem ++ Path.extsep :: e)
  = if forallb (N.eqb Path.extsep) stem then (stem ++ Path.extsep :: e, [])
    else (stem, Path.extsep :: e).
Proof.
  intros Hs He Hd. unfold Path.splitext.
  rewrite rfind_notin.
  - rewrite rfind_last by exact Hd.
    replace (-1 <? Z.of_nat (length stem))%Z with true by (symmetry; apply Z.ltb_lt; lia).
    change (-1 + 1)%Z with 0%Z. rewrite slice_prefix, Nat2Z.id, skipn_prefix.
    reflexivity.
  - intros Hin. apply in_app_or in Hin. destruct Hin as [Hin|[Hin|Hin]]; auto.
    discriminate Hin.
Qed.

(** X7. [os.path.splitext] loses nothing: root and extension put together
    give the path back. *)
Theorem splitext_pieces p :
  fst (Path.splitext p) ++ snd (Path.splitext p) = p.
Proof.
  unfold Path.splitext.
  destruct (Path.rfind Path.sep p <? Path.rfind Path.extsep p)%Z; [|apply app_nil_r].
  destruct (forallb _ _); [apply app_nil_r|].
  cbn [fst snd]. unfold Path.slice. rewrite Z.sub_0_r. cbn [Z.to_nat skipn].
  apply firstn_skipn.
Qed.

(** X8. A transcript named [stem.txt] or [stem.docx], where the stem holds
    no slash and at least one character other than a dot, is written to
    [coded_<stem>.csv]. *)
Theorem out_name_of_transcript stem ext :
  ext = py ".txt" \/ ext = py ".docx" ->
  ~ In Path.sep stem ->
  forallb (N.eqb Path.extsep) stem = false ->
  supported (stem ++ ext) = true
  /\ out_name (stem ++ ext) = py "coded_" ++ stem ++ py ".csv".
Proof.
  intros Hext Hs Hd. split.
  - now apply supported_ext.
  - unfold out_name.
    destruct Hext as [-> | ->];
      (change (stem ++ py ".txt") with (stem ++ Path.extsep :: py "txt")
       || change (stem ++ py ".docx") with (stem ++ Path.extsep :: py "docx"));
      rewrite splitext_plain, Hd; try reflexivity; try exact Hs;
      cbn; intuition discriminate.
Qed.

Lemma out_name_of_transcript_witness :
  supported (py "p01.v2" ++ py ".docx") = true
  /\ out_name (py "p01.v2" ++ py ".docx") = py "coded_" ++ py "p01.v2" ++ py ".csv".
Proof.
  apply out_name_of_transcript.
  - now right.
  - cbn. intuition discriminate.
  - reflexivity.
Defined.

(** X9. A supported entry whose name before the extension is empty or made
    of dots only, such as the hidden file ".txt", has no extension for
    [os.path.splitext]: its output keeps the whole name,
    [coded_<name>.csv]. *)
Theorem out_name_of_dot_file dots ext :
  ext = py ".txt" \/ ext = py ".docx" ->
  forallb (N.eqb Path.extsep) dots = true ->
  supported (dots ++ ext) = true
  /\ out_name (dots ++ ext) = py "coded_" ++ dots ++ ext ++ py ".csv".
Proof.
  intros Hext Hd. split.
  - now apply supported_ext.
  - assert (Hs : ~ In Path.sep dots).
    { intros Hin. pose proof (proj1 (forallb_forall _ _) Hd _ Hin) as E.
      discriminate E. }
    unfold out_name.
    destruct Hext as [-> | ->];
      (change (dots ++ py ".txt") with (dots ++ Path.extsep :: py "txt")
       || change (dots ++ py ".docx") with (dots ++ Path.extsep :: py "docx"));
      rewrite splitext_plain, Hd; try exact Hs;
      try (cbn [fst]; now rewrite <- app_assoc);
      cbn; intuition discriminate.
Qed.

Lemma out_name_of_dot_file_witness :
  supported ([] ++ py ".txt") = true
  /\ out_name ([] ++ py ".txt") = py "coded_" ++ [] ++ py ".txt" ++ py ".csv".
Proof. apply out_name_of_dot_file; [now left | reflexivity]. Defined.

Lemma path_join_relative dir name c rest :
  name = c :: rest -> c <> Path.sep -> Path.join dir name = dir_prefix dir ++ name.
Proof.
  intros -> Hc. unfold Path.join, dir_prefix. cbn [startswith].
  destruct (N.eqb_spec c Path.sep) as [E|_]; [congruence|]. cbn [andb].
  destruct dir as [|x dir]; [reflexivity|].
  destruct (endswith (x :: dir) [Path.sep]); [reflexivity|].
  now rewrite <- app_assoc.
Qed.

Lemma out_path_shape output_dir filename :
  Path.join output_dir (out_name filename)
  = dir_prefix output_dir ++ py "coded_" ++ fst (Path.splitext filename) ++ py ".csv".
Proof.
  erewrite path_join_relative; [reflexivity | reflexivity | discriminate].
Qed.

(** X10. An output path never has a transcript extension: a later run over
    a folder that holds earlier outputs passes them over. *)
Theorem outputs_are_not_transcripts output_dir filename :
  supported (out_name filename) = false
  /\ supported (Path.join output_dir (out_name filename)) = false.
Proof.
  assert (G : forall s, supported (s ++ py ".csv") = false).
  { intros s. unfold supported, endswith. rewrite rev_app_distr. reflexivity. }
  split.
  - unfold out_name. rewrite app_assoc. apply G.
  - rewrite out_path_shape, !app_assoc. apply G.
Qed.

(** X11. Two entries are written to the same output path exactly when
    [os.path.splitext] gives them the same root. *)
Theorem same_output_iff_same_root output_dir f1 f2 :
  Path.join output_dir (out_name f1) = Path.join output_dir (out_name f2)
  <-> fst (Path.splitext f1) = fst (Path.splitext f2).
Proof.
  rewrite !out_path_shape. split.
  - intros H. apply app_inv_head in H. apply app_inv_head in H.
    now apply app_inv_tail in H.
  - intros ->. reflexivity.
Qed.

(* ================================================================== *)
(** * What a run calls *)
(* ================================================================== *)

Lemma emits_ret {A} P (a : A) : emits P (ret a).
Proof. intros h. exists []. split; [symmetry; apply app_nil_r | constructor]. Qed.

Lemma emits_raise {A} P e : emits P (@raise A e).
Proof. intros h. exists []. split; [symmetry; apply app_nil_r | constructor]. Qed.

Lemma emits_lift {A} P (r : result A) : emits P (lift r).
Proof. intros h. exists []. split; [symmetry; apply app_nil_r | constructor]. Qed.

Lemma emits_call {A} (P : event -> Prop) ev (f : trace -> result A) :
  P ev -> emits P (call ev f).
Proof. intros H h. exists [ev]. split; [reflexivity | repeat constructor; exact H]. Qed.

Lemma emits_bind {A B} P (m : M A) (f : A -> M B) :
  emits P m -> (forall a, emits P (f a)) -> emits P (bind m f).
Proof.
  intros Hm Hf h. unfold bind. destruct (Hm h) as [n1 [E1 F1]].
  destruct (m h) as [[a|e] h1]; simpl in E1; subst h1.
  - destruct (Hf a (h ++ n1)) as [n2 [E2 F2]]. exists (n1 ++ n2).
    split; [now rewrite E2, app_assoc | now apply Forall_app].
  - exists n1. auto.
Qed.

Lemma emits_weaken {A} (P Q : event -> Prop) (m : M A) :
  (forall ev, P ev -> Q ev) -> emits P m -> emits Q m.
Proof.
  intros H Hm h. destruct (Hm h) as [new [E F]]. exists new.
  split; [exact E | eapply Forall_impl; eassumption].
Qed.

Lemma emits_for_each {A} P (xs : list A) (body : A -> M unit) :
  (forall x, In x xs -> emits P (body x)) -> emits P (for_each xs body).
Proof.
  induction xs as [|x xs IH]; intros H; cbn [for_each].
  - apply emits_ret.
  - apply emits_bind; [apply H; now left|]. intros _. apply IH.
    intros y Hy. apply H. now right.
Qed.

Lemma emits_load_transcript env path (P : event -> Prop) :
  P (Open path) -> P (Document path) -> emits P (load_transcript env path).
Proof.
  intros Ho Hd. unfold load_transcript.
  destruct (endswith path (py ".txt")); [now apply emits_call|].
  destruct (endswith path (py ".docx")); [|apply emits_raise].
  apply emits_bind; [now apply emits_call | intros; apply emits_ret].
Qed.

Lemma emits_coder env text theme_prompt (P : event -> Prop) :
  P (Chat (py "mistral") (messages text theme_prompt)) ->
  emits P (code_transcript_with_themes env text theme_prompt).
Proof.
  intros H. unfold code_transcript_with_themes.
  apply emits_bind; [now apply emits_call|]. intros content.
  destruct (json_loads env (strip content)); [apply emits_ret | apply emits_raise].
Qed.

Lemma emits_new_frame env coded_items P : emits P (new_frame env coded_items).
Proof.
  unfold new_frame. destruct coded_items; try apply emits_lift.
  destruct (records_frame items); [apply emits_ret | apply emits_lift].
Qed.

Lemma emits_process_entry env transcript_dir theme_prompt output_dir entries filename :
  In filename entries ->
  emits (entry_event transcript_dir theme_prompt output_dir entries)
        (process_entry env transcript_dir theme_prompt output_dir filename).
Proof.
  intros Hin. unfold process_entry.
  destruct (supported filename) eqn:Hs; cbn [negb]; [|apply emits_ret].
  apply emits_bind; [apply emits_call; exact I|]. intros _.
  apply emits_bind.
  { apply emits_load_transcript; cbn; eauto. }
  intros raw. apply emits_bind.
  { apply emits_coder. cbn. eauto. }
  intros coded_items. apply emits_bind; [apply emits_new_frame|]. intros df.
  apply emits_bind; [apply emits_call; cbn; eauto|]. intros _.
  apply emits_call. exact I.
Qed.

(** X12. Once the output directory is made, the codebook loaded and the
    transcript directory listed, a run calls nothing but this, whether it
    ends well or not: it prints progress, loads supported files of the
    listing from the transcript directory, sends chats to "mistral" whose
    system message is built from the codebook text loaded at the start, and
    writes [coded_<root>.csv] files in the output directory.  The codebook
    is not read again, nothing else is listed, opened or written. *)
Theorem run_footprint env transcript_dir theme_path output_dir h theme_prompt h1 entries :
  makedirs env h output_dir = Ok tt ->
  load_themes env theme_path (h ++ [Makedirs output_dir]) = (Ok theme_prompt, h1) ->
  listdir env h1 transcript_dir = Ok entries ->
  exists rest,
    snd (process_folder env transcript_dir theme_path output_dir h)
    = h ++ [Makedirs output_dir; read_event theme_path; Listdir transcript_dir] ++ rest
    /\ Forall (entry_event transcript_dir theme_prompt output_dir entries) rest.
Proof.
  intros Hm Hl Hd.
  assert (E1 : h1 = (h ++ [Makedirs output_dir]) ++ [read_event theme_path]).
  { pose proof (f_equal snd Hl) as E. rewrite load_themes_read in E.
    destruct (table_at env (h ++ [Makedirs output_dir]) theme_path) as [df|e].
    - pose proof (proj1 (theme_lines_pure (iter_rows df) []
                           ((h ++ [Makedirs output_dir]) ++ [read_event theme_path]))) as Hs.
      destruct (for_fold _ _ _ _) as [[lines|e] h']; simpl in *; congruence.
    - simpl in E. congruence. }
  destruct (@emits_for_each str
              (entry_event transcript_dir theme_prompt output_dir entries) entries
              (process_entry env transcript_dir theme_prompt output_dir)
              (fun f Hf => emits_process_entry env transcript_dir theme_prompt
                             output_dir entries f Hf)
              (h1 ++ [Listdir transcript_dir])) as [rest [Er Fr]].
  exists rest. split; [|exact Fr].
  unfold process_folder. unfold bind at 1. unfold call at 1. rewrite Hm.
  unfold bind at 1. rewrite Hl. unfold bind at 1. unfold call at 1. rewrite Hd.
  rewrite Er, E1. rewrite <- !app_assoc. reflexivity.
Qed.

Lemma run_footprint_witness :
  let entries := [py "p01.txt"; py "p02.docx"; py "notes.md"] in
  let env := demo_env (Ok demo_codebook) entries (py "Sorry, no.") None in
  exists rest,
    snd (process_folder env (py "transcripts") (py "themes.xlsx") (py "coded_output") [])
    = [] ++ [Makedirs (py "coded_output"); read_event (py "themes.xlsx");
             Listdir (py "transcripts")] ++ rest
    /\ Forall (entry_event (py "transcripts") (py "- A: foo" ++ [nl] ++ py "- B: bar")
                 (py "coded_output") entries) rest.
Proof.
  intros entries env.
  apply (@run_footprint env (py "transcripts") (py "themes.xlsx") (py "coded_output") []
           (py "- A: foo" ++ [nl] ++ py "- B: bar")
           [Makedirs (py "coded_output"); ReadExcel (py "themes.xlsx")] entries);
    reflexivity.
Defined.

Lemma chats_app a b : chats (a ++ b) = chats a ++ chats b.
Proof.
  induction a as [|ev a IH]; simpl; [reflexivity|].
  destruct ev; simpl; now rewrite IH.
Qed.

Lemma load_transcript_chats env path h r h' :
  load_transcript env path h = (r, h') -> chats h' = chats h.
Proof.
  unfold load_transcript, bind, call, ret, raise.
  destruct (endswith path (py ".txt")).
  - intros H; inversion H; subst. rewrite chats_app. simpl. now rewrite app_nil_r.
  - destruct (endswith path (py ".docx")).
    + destruct (docx_paragraphs env h path); intros H; inversion H; subst;
        rewrite chats_app; simpl; now rewrite app_nil_r.
    + intros H; inversion H; subst. reflexivity.
Qed.

Lemma coder_trace env text theme_prompt h :
  snd (code_transcript_with_themes env text theme_prompt h)
  = h ++ [Chat (py "mistral") (messages text theme_prompt)].
Proof.
  unfold code_transcript_with_themes, bind, call, ret, raise.
  destruct (chat env h _ _) as [content|e]; [|reflexivity].
  destruct (json_loads env (strip content)); reflexivity.
Qed.

(** A supported entry processed to the end caused one model call. *)
Lemma process_entry_chat env transcript_dir theme_prompt output_dir filename h h' :
  supported filename = true ->
  process_entry env transcript_dir theme_prompt output_dir filename h = (Ok tt, h') ->
  length (chats h') = S (length (chats h)).
Proof.
  intros Hs. rewrite (process_entry_run env transcript_dir theme_prompt output_dir filename h Hs).
  unfold bind at 1.
  destruct (load_transcript env _ _) as [[raw|e] h1] eqn:Hl; [|discriminate].
  unfold bind at 1.
  pose proof (coder_trace env (extract_interviewee_text raw) theme_prompt h1) as Hc.
  destruct (code_transcript_with_themes env _ _ h1) as [[items|e] h2]; [|discriminate].
  simpl in Hc. subst h2. unfold bind at 1.
  destruct (new_frame env items _) as [[df|e] h3] eqn:Hf; [|discriminate].
  apply new_frame_trace in Hf. subst h3.
  unfold bind, call.
  destruct (write_csv env _ _ df); [|discriminate].
  intros H. inversion H; subst.
  rewrite !chats_app, (load_transcript_chats _ _ _ Hl), chats_app.
  simpl. rewrite !app_nil_r, length_app. simpl. lia.
Qed.

Lemma for_each_entries_chats env transcript_dir theme_prompt output_dir entries h h' :
  for_each entries (process_entry env transcript_dir theme_prompt output_dir) h = (Ok tt, h') ->
  length (chats h') = length (chats h) + length (filter supported entries).
Proof.
  revert h. induction entries as [|f entries IH]; intros h; cbn [for_each].
  - unfold ret. intros H; inversion H; subst. simpl. lia.
  - unfold bind at 1.
    destruct (process_entry env transcript_dir theme_prompt output_dir f h)
      as [[[]|e] h1] eqn:Hp; [|discriminate].
    intros H. rewrite (IH _ H). cbn [filter].
    destruct (supported f) eqn:Hs.
    + rewrite (process_entry_chat _ _ _ _ _ _ Hs Hp). simpl. lia.
    + rewrite (process_entry_skipped env transcript_dir theme_prompt output_dir f h Hs) in Hp.
      inversion Hp; subst. lia.
Qed.

Lemma load_themes_trace env theme_path h :
  snd (load_themes env theme_path h) = h ++ [read_event theme_path].
Proof.
  rewrite load_themes_read.
  destruct (table_at env h theme_path) as [df|e]; [|reflexivity].
  pose proof (proj1 (theme_lines_pure (iter_rows df) [] (h ++ [read_event theme_path]))) as Hs.
  destruct (for_fold _ _ _ _) as [[lines|e] h']; exact Hs.
Qed.

Lemma read_event_quiet theme_path :
  chats [read_event theme_path] = [] /\ writes [read_event theme_path] = [].
Proof. unfold read_event. destruct (endswith theme_path (py ".xlsx")); split; reflexivity. Qed.

(** X13. A run that ends well has made, for the supported entries of the
    listing and in listing order, one model call and one write each, the
    write going to [coded_<root>.csv] in the output directory; the other
    entries caused neither. *)
Theorem successful_run_calls env transcript_dir theme_path output_dir h h' :
  process_folder env transcript_dir theme_path output_dir h = (Ok tt, h') ->
  exists hl entries,
    listdir env hl transcript_dir = Ok entries
    /\ map fst (writes h')
       = map fst (writes h)
         ++ map (fun f => Path.join output_dir (out_name f)) (filter supported entries)
    /\ length (chats h') = length (chats h) + length (filter supported entries).
Proof.
  unfold process_folder. unfold bind at 1. unfold call at 1.
  destruct (makedirs env h output_dir); [|discriminate].
  unfold bind at 1.
  pose proof (load_themes_trace env theme_path (h ++ [Makedirs output_dir])) as Ht.
  destruct (load_themes env theme_path (h ++ [Makedirs output_dir]))
    as [[theme_prompt|e] h1]; [|discriminate].
  simpl in Ht. subst h1. unfold bind at 1. unfold call at 1.
  destruct (listdir env _ transcript_dir) as [entries|e] eqn:Hl; [|discriminate].
  intros H. eexists _, entries. split; [exact Hl|].
  destruct (read_event_quiet theme_path) as [Hc Hw].
  rewrite (for_each_entries_writes _ _ _ _ _ _ H), (for_each_entries_chats _ _ _ _ _ _ H).
  rewrite !writes_app, !chats_app, Hc, Hw. simpl. now rewrite !app_nil_r.
Qed.

Lemma successful_run_calls_witness :
  let entries := [py "p01.txt"; py "notes.md"; py "p02.docx"] in
  let env := demo_env (Ok demo_codebook) entries demo_reply_text (Some demo_reply) in
  let h' := snd (main env []) in
  exists hl entries',
    listdir env hl (py "transcripts") = Ok entries'
    /\ map fst (writes h')
       = map fst (writes [])
         ++ map (fun f => Path.join (py "coded_output") (out_name f))
                (filter supported entries')
    /\ length (chats h') = length (chats []) + length (filter supported entries').
Proof.
  intros entries env h'.
  apply (@successful_run_calls env (py "transcripts") (py "themes.xlsx")
           (py "coded_output") [] h').
  vm_compute. reflexivity.
Defined.

Lemma for_each_stops {A} (pre post : list A) x (body : A -> M unit) h h1 e h2 :
  for_each pre body h = (Ok tt, h1) ->
  body x h1 = (Raise e, h2) ->
  for_each (pre ++ x :: post) body h = (Raise e, h2).
Proof.
  revert h. induction pre as [|y pre IH]; intros h; cbn [for_each app].
  - unfold ret. intros H Hb. inversion H; subst. unfold bind. now rewrite Hb.
  - unfold bind at 1 2. destruct (body y h) as [[[]|e'] h'] eqn:Hy; [|discriminate].
    intros H Hb. exact (IH _ H Hb).
Qed.

(** X14. The first entry whose processing raises ends the run with that
    exception: the entries after it in the listing cause no call at all,
    and what the earlier entries wrote stays written. *)
Theorem run_stops_at_first_error
    env transcript_dir theme_path output_dir h theme_prompt h1 before entry after h2 e h3 :
  makedirs env h output_dir = Ok tt ->
  load_themes env theme_path (h ++ [Makedirs output_dir]) = (Ok theme_prompt, h1) ->
  listdir env h1 transcript_dir = Ok (before ++ entry :: after) ->
  for_each before (process_entry env transcript_dir theme_prompt output_dir)
    (h1 ++ [Listdir transcript_dir]) = (Ok tt, h2) ->
  process_entry env transcript_dir theme_prompt output_dir entry h2 = (Raise e, h3) ->
  process_folder env transcript_dir theme_path output_dir h = (Raise e, h3)
  /\ exists rest, h3 = h2 ++ rest
       /\ Forall (entry_event transcript_dir theme_prompt output_dir [entry]) rest.
Proof.
  intros Hm Hl Hd Hb He. split.
  - unfold process_folder. unfold bind at 1. unfold call at 1. rewrite Hm.
    unfold bind at 1. rewrite Hl. unfold bind at 1. unfold call at 1. rewrite Hd.
    now apply for_each_stops with (h1 := h2).
  - destruct (@emits_process_entry env transcript_dir theme_prompt output_dir [entry] entry
                (or_introl eq_refl) h2) as [rest [Er Fr]].
    rewrite He in Er. simpl in Er. eauto.
Qed.

Lemma run_stops_at_first_error_witness :
  let entries := [py "notes.md"] ++ py "p01.txt" :: [py "p02.docx"] in
  let env := demo_env (Ok demo_codebook) entries (py "Sorry, no.") None in
  let tp := py "- A: foo" ++ [nl] ++ py "- B: bar" in
  let h2 := [Makedirs (py "coded_output"); ReadExcel (py "themes.xlsx")]
            ++ [Listdir (py "transcripts")] in
  let h3 := h2 ++ [Print ([nl] ++ py "=== Processing p01.txt ===");
                   Open (py "transcripts/p01.txt");
                   Chat (py "mistral") (messages (py "hello") tp)] in
  main env [] = (Raise JSONDecodeError, h3)
  /\ exists rest, h3 = h2 ++ rest
       /\ Forall (entry_event (py "transcripts") tp (py "coded_output") [py "p01.txt"]) rest.
Proof.
  intros entries env tp h2 h3.
  apply (@run_stops_at_first_error env (py "transcripts") (py "themes.xlsx")
           (py "coded_output") [] tp
           [Makedirs (py "coded_output"); ReadExcel (py "themes.xlsx")]
           [py "notes.md"] (py "p01.txt") [py "p02.docx"] h2 JSONDecodeError h3);
    reflexivity.
Defined.

Lemma for_each_all_skipped env transcript_dir theme_prompt output_dir entries h :
  filter supported entries = [] ->
  for_each entries (process_entry env transcript_dir theme_prompt output_dir) h = (Ok tt, h).
Proof.
  induction entries as [|f entries IH]; cbn [for_each filter]; [reflexivity|].
  destruct (supported f) eqn:Hs; [discriminate|]. intros H.
  unfold bind. rewrite (process_entry_skipped env transcript_dir theme_prompt output_dir f h Hs).
  now apply IH.
Qed.

(** X15. A transcript directory with no entry ending in ".txt" or ".docx"
    (an empty one, for instance) gives a run that ends well after making the
    output directory, reading the codebook and listing the directory: no
    file is opened, the model is not called, nothing is written. *)
Theorem run_without_transcripts env transcript_dir theme_path output_dir h theme_prompt h1 entries :
  makedirs env h output_dir = Ok tt ->
  load_themes env theme_path (h ++ [Makedirs output_dir]) = (Ok theme_prompt, h1) ->
  listdir env h1 transcript_dir = Ok entries ->
  filter supported entries = [] ->
  process_folder env transcript_dir theme_path output_dir h
  = (Ok tt, h ++ [Makedirs output_dir; read_event theme_path; Listdir transcript_dir]).
Proof.
  intros Hm Hl Hd Hf.
  pose proof (load_themes_trace env theme_path (h ++ [Makedirs output_dir])) as Ht.
  rewrite Hl in Ht. simpl in Ht. subst h1.
  unfold process_folder. unfold bind at 1. unfold call at 1. rewrite Hm.
  unfold bind at 1. rewrite Hl. unfold bind at 1. unfold call at 1. rewrite Hd.
  rewrite for_each_all_skipped by exact Hf. now rewrite <- !app_assoc.
Qed.

Lemma run_without_transcripts_witness :
  let env := demo_env (Ok demo_codebook) [py "notes.md"; py "coded_p01.csv"]
               demo_reply_text (Some demo_reply) in
  main env []
  = (Ok tt, [] ++ [Makedirs (py "coded_output"); read_event (py "themes.xlsx");
                   Listdir (py "transcripts")]).
Proof.
  intros env.
  apply (@run_without_transcripts env (py "transcripts") (py "themes.xlsx")
           (py "coded_output") [] (py "- A: foo" ++ [nl] ++ py "- B: bar")
           [Makedirs (py "coded_output"); ReadExcel (py "themes.xlsx")]
           [py "notes.md"; py "coded_p01.csv"]); reflexivity.
Defined.

(* ================================================================== *)
(** * Further properties of the codebook loader and the coder *)
(* ================================================================== *)

Lemma bullet_single_line entry :
  ~ In nl (format (fst entry)) -> ~ In nl (format (snd entry)) ->
  ~ In nl (bullet entry).
Proof.
  intros H1 H2 Hin. unfold bullet in Hin.
  repeat (apply in_app_or in Hin; destruct Hin as [Hin|Hin]); auto;
    cbn in Hin; intuition discriminate.
Qed.

(** X16. When no code and no definition contains a newline, the codebook
    text splits on newlines into exactly one line per row, each
    [- <code>: <definition>], in row order. *)
Theorem codebook_text_lines env theme_path h df entries :
  table_at env h theme_path = Ok df ->
  Forall2 theme_row (iter_rows df) entries ->
  entries <> [] ->
  Forall (fun e => ~ In nl (format (fst e)) /\ ~ In nl (format (snd e))) entries ->
  exists text,
    fst (load_themes env theme_path h) = Ok text
    /\ split nl text = map bullet entries.
Proof.
  intros Ht F Hne Hnl. exists (join [nl] (map bullet entries)). split.
  - rewrite load_themes_read, Ht, (theme_lines_ok _ _ F). reflexivity.
  - destruct entries as [|e entries]; [congruence|]. cbn [map].
    apply split_join. rewrite <- map_cons. apply Forall_map.
    eapply Forall_impl; [|exact Hnl]. intros a [H1 H2]. now apply bullet_single_line.
Qed.

Lemma codebook_text_lines_witness :
  let env := demo_env (Ok demo_codebook) [] [] None in
  exists text,
    fst (load_themes env (py "themes.csv") []) = Ok text
    /\ split nl text
       = map bullet [(CStr (py "A"), CStr (py "foo")); (CStr (py "B"), CStr (py "bar"))].
Proof.
  intros env.
  apply (@codebook_text_lines env (py "themes.csv") [] demo_codebook
           [(CStr (py "A"), CStr (py "foo")); (CStr (py "B"), CStr (py "bar"))]).
  - reflexivity.
  - repeat constructor.
  - discriminate.
  - repeat constructor; cbn; intuition discriminate.
Defined.

Lemma getitem_missing {V} (row : list (str * V)) key :
  ~ In key (map fst row) -> getitem row key = Raise (KeyError key).
Proof.
  intros H. destruct (getitem row key) as [v|e] eqn:E.
  - exfalso. exact (H (getitem_ok_in _ _ E)).
  - now rewrite (getitem_raise _ _ E).
Qed.

Lemma getitem_combine_found {V} (cols : list str) (r : list V) key :
  In key cols -> length r = length cols ->
  exists v, getitem (combine cols r) key = Ok v.
Proof.
  revert r. induction cols as [|c cols IH]; intros [|x r] Hin Hlen;
    simpl in *; try contradiction; try discriminate.
  destruct (str_eqb c key) eqn:E; [eauto|].
  destruct Hin as [->|Hin]; [rewrite str_eqb_refl in E; discriminate|].
  apply IH; [assumption | lia].
Qed.

(** X17. The error for a missing codebook column names the first column
    looked up and not found in the first row: [code] when the table has no
    such column, [definition] when it has [code] but not [definition]. *)
Theorem missing_column_is_named env theme_path h df r rs :
  table_at env h theme_path = Ok df ->
  rows df = r :: rs ->
  length r = length (columns df) ->
  (~ In (py "code") (columns df) ->
   load_themes env theme_path h
   = (Raise (KeyError (py "code")), h ++ [read_event theme_path]))
  /\ (In (py "code") (columns df) -> ~ In (py "definition") (columns df) ->
      load_themes env theme_path h
      = (Raise (KeyError (py "definition")), h ++ [read_event theme_path])).
Proof.
  intros Ht Hr Hlen. split.
  - intros Hc. rewrite load_themes_read, Ht. unfold iter_rows. rewrite Hr.
    cbn [map for_fold]. unfold bind at 1. unfold theme_line, bind, lift.
    rewrite getitem_missing; [reflexivity|].
    intros Hin. apply Hc. exact (combine_keys _ _ _ Hin).
  - intros Hc Hd. rewrite load_themes_read, Ht. unfold iter_rows. rewrite Hr.
    cbn [map for_fold]. unfold bind at 1. unfold theme_line, bind, lift.
    destruct (@getitem_combine_found _ (columns df) r (py "code") Hc Hlen) as [v Hv].
    rewrite Hv.
    rewrite getitem_missing; [reflexivity|].
    intros Hin. apply Hd. exact (combine_keys _ _ _ Hin).
Qed.

Lemma missing_column_is_named_witness :
  let env := demo_env (Ok misnamed_codebook) [] [] None in
  load_themes env (py "themes.csv") []
  = (Raise (KeyError (py "code")), [] ++ [read_event (py "themes.csv")]).
Proof.
  intros env.
  apply (proj1 (@missing_column_is_named env (py "themes.csv") []
                  misnamed_codebook [CStr (py "A"); CStr (py "foo")] []
                  eq_refl eq_refl eq_refl)).
  cbn. intros [H|[H|[]]]; discriminate H.
Defined.

Lemma extract_blank_or_interviewer text :
  forallb blank_or_interviewer (split nl text) = true ->
  extract_interviewee_text text = [].
Proof.
  intros H. rewrite extract_kept.
  assert (K : kept (split nl text) = []); [|now rewrite K].
  induction (split nl text) as [|l ls IH]; [reflexivity|].
  simpl in H. apply andb_prop in H. destruct H as [Hl Hls].
  simpl. rewrite (keep_blank_or_interviewer _ Hl). auto.
Qed.

(** X18. A transcript that holds no interviewee line is still sent to the
    model: the chat is made with an empty transcript between the two
    sentences of the user message. *)
Theorem empty_transcript_is_still_coded
    env transcript_dir theme_prompt output_dir filename h raw h1 :
  supported filename = true ->
  load_transcript env (Path.join transcript_dir filename)
    (h ++ [Print ([nl] ++ py "=== Processing " ++ filename ++ py " ===")])
  = (Ok raw, h1) ->
  forallb blank_or_interviewer (split nl raw) = true ->
  exists rest,
    snd (process_entry env transcript_dir theme_prompt output_dir filename h)
    = h1 ++ Chat (py "mistral")
               [(py "system", system_prompt theme_prompt);
                (py "user",
                 py "Here is the full interviewee-only transcript:" ++ [nl; nl; nl; nl]
                 ++ py "Extract all theme-coded quotes now.")]
            :: rest.
Proof.
  intros Hs Hl Hb.
  rewrite (process_entry_run env transcript_dir theme_prompt output_dir filename h Hs).
  unfold bind at 1. rewrite Hl, (extract_blank_or_interviewer _ Hb).
  unfold bind at 1.
  pose proof (coder_trace env [] theme_prompt h1) as Hc.
  destruct (code_transcript_with_themes env [] theme_prompt h1) as [[items|e] h2].
  - simpl in Hc. subst h2.
    destruct (@emits_bind _ _ (fun _ => True) (new_frame env items)
                (fun df =>
                   call (WriteCsv (Path.join output_dir (out_name filename)) df)
                     (fun h0 => write_csv env h0
                                  (Path.join output_dir (out_name filename)) df) ;;
                   call (Print (py "Saved " ++ [arrow] ++ py " "
                                ++ Path.join output_dir (out_name filename)))
                     (fun _ => Ok tt))
                (emits_new_frame env items _)) with
        (h := h1 ++ [Chat (py "mistral") (messages [] theme_prompt)])
      as [rest [Er _]].
    + intros df. apply emits_bind; [now apply emits_call|].
      intros _. now apply emits_call.
    + exists rest. rewrite Er. now rewrite <- app_assoc.
  - simpl in Hc. subst h2. exists []. reflexivity.
Qed.

Lemma empty_transcript_is_still_coded_witness :
  let env := demo_env (Ok demo_codebook) [py "p02.docx"] (py "[]") (Some (JArr [])) in
  let env' := mkEnv (open_read env)
                (fun _ _ => Ok [py "Interviewer: hi"; py ""; py "INT - bye"])
                (read_excel env) (read_csv env) (makedirs env) (listdir env) (chat env)
                (json_loads env) (frame_other env) (write_csv env) in
  exists rest,
    snd (process_entry env' (py "transcripts") (py "- A: foo") (py "coded_output")
           (py "p02.docx") [])
    = ([] ++ [Print ([nl] ++ py "=== Processing " ++ py "p02.docx" ++ py " ===")]
       ++ [Document (py "transcripts/p02.docx")])
      ++ Chat (py "mistral")
           [(py "system", system_prompt (py "- A: foo"));
            (py "user",
             py "Here is the full interviewee-only transcript:" ++ [nl; nl; nl; nl]
             ++ py "Extract all theme-coded quotes now.")]
         :: rest.
Proof.
  intros env env'.
  apply (@empty_transcript_is_still_coded env' (py "transcripts") (py "- A: foo")
           (py "coded_output") (py "p02.docx") []
           (py "Interviewer: hi" ++ [nl] ++ [nl] ++ py "INT - bye")); reflexivity.
Defined.

Lemma split_join_flat paragraphs :
  paragraphs <> [] ->
  split nl (join [nl] paragraphs) = flat_map (split nl) paragraphs.
Proof.
  induction paragraphs as [|p ps IH]; [congruence|]. intros _.
  destruct ps as [|p' ps].
  - simpl. now rewrite app_nil_r.
  - change (join [nl] (p :: p' :: ps)) with (p ++ nl :: join [nl] (p' :: ps)).
    rewrite split_app, IH by discriminate. reflexivity.
Qed.

(** X19. For a ".docx" transcript the filter works paragraph by paragraph:
    its output is the retained remainders of the document's paragraphs, in
    order, a paragraph with line breaks counting as several lines. *)
Theorem docx_is_filtered_by_paragraph env path h paragraphs :
  endswith path (py ".docx") = true ->
  docx_paragraphs env h path = Ok paragraphs ->
  exists raw,
    load_transcript env path h = (Ok raw, h ++ [Document path])
    /\ extract_interviewee_text raw
       = join [nl] (fold_left filter_step (flat_map (split nl) paragraphs) []).
Proof.
  intros He Hp. exists (join [nl] paragraphs). split.
  - unfold load_transcript. rewrite (endswith_txt_docx _ He), He.
    unfold bind, call, ret. now rewrite Hp.
  - unfold extract_interviewee_text.
    destruct paragraphs as [|p ps]; [reflexivity|].
    now rewrite split_join_flat by discriminate.
Qed.

Lemma docx_is_filtered_by_paragraph_witness :
  let env := demo_env (Ok demo_codebook) [] [] None in
  exists raw,
    load_transcript env (py "transcripts/p02.docx") []
    = (Ok raw, [] ++ [Document (py "transcripts/p02.docx")])
    /\ extract_interviewee_text raw
       = join [nl] (fold_left filter_step
                      (flat_map (split nl) [py "Interviewer: hi"; py "R: fine"]) []).
Proof.
  intros env.
  apply (@docx_is_filtered_by_paragraph env (py "transcripts/p02.docx") []
           [py "Interviewer: hi"; py "R: fine"]); reflexivity.
Defined.

(** X20. A reply that parses to the empty array still gives an output file:
    the entry is processed to the end and a table without rows or columns
    is written under the entry's output name. *)
Theorem empty_reply_writes_empty_table
    env transcript_dir theme_prompt output_dir filename h raw h1 content :
  supported filename = true ->
  load_transcript env (Path.join transcript_dir filename)
    (h ++ [Print ([nl] ++ py "=== Processing " ++ filename ++ py " ===")])
  = (Ok raw, h1) ->
  chat env h1 (py "mistral") (messages (extract_interviewee_text raw) theme_prompt)
  = Ok content ->
  json_loads env (strip content) = Some (JArr []) ->
  let h2 := h1 ++ [Chat (py "mistral") (messages (extract_interviewee_text raw) theme_prompt)] in
  let out_path := Path.join output_dir (out_name filename) in
  write_csv env h2 out_path (mkFrame [] []) = Ok tt ->
  process_entry env transcript_dir theme_prompt output_dir filename h
  = (Ok tt, h2 ++ [WriteCsv out_path (mkFrame [] []);
                   Print (py "Saved " ++ [arrow] ++ py " " ++ out_path)]).
Proof.
  intros Hs Hl Hc Hj h2 out_path Hw.
  rewrite (process_entry_run env transcript_dir theme_prompt output_dir filename h Hs).
  unfold bind at 1. rewrite Hl.
  unfold bind at 1. rewrite (coder_run env _ theme_prompt h1 Hc), Hj.
  fold h2. unfold bind at 1. cbn [new_frame records_frame]. unfold ret at 1.
  unfold bind, call. fold out_path. rewrite Hw. now rewrite <- app_assoc.
Qed.

Lemma empty_reply_writes_empty_table_witness :
  let env := demo_env (Ok demo_codebook) [py "p01.txt"] (py "[]") (Some (JArr [])) in
  let h1 := [Print ([nl] ++ py "=== Processing p01.txt ===");
             Open (py "transcripts/p01.txt")] in
  let h2 := h1 ++ [Chat (py "mistral") (messages (py "hello") (py "- A: foo"))] in
  process_entry env (py "transcripts") (py "- A: foo") (py "coded_output") (py "p01.txt") []
  = (Ok tt, h2 ++ [WriteCsv (py "coded_output/coded_p01.csv") (mkFrame [] []);
                   Print (py "Saved " ++ [arrow] ++ py " coded_output/coded_p01.csv")]).
Proof.
  intros env h1 h2.
  apply (@empty_reply_writes_empty_table env (py "transcripts") (py "- A: foo")
           (py "coded_output") (py "p01.txt") [] (py "P: hello") h1 (py "[]"));
    reflexivity.
Defined.

Lemma startswith_inv s prefix :
  startswith s prefix = true -> exists rest, s = prefix ++ rest.
Proof.
  revert s. induction prefix as [|p prefix IH]; intros s H.
  - exists s. reflexivity.
  - destruct s as [|c s]; [discriminate|]. simpl in H.
    apply andb_prop in H. destruct H as [Hc Hs]. apply N.eqb_eq in Hc. subst c.
    destruct (IH _ Hs) as [rest ->]. exists rest. reflexivity.
Qed.

Lemma endswith_inv s suffix :
  endswith s suffix = true -> exists stem, s = stem ++ suffix.
Proof.
  unfold endswith. intros H. destruct (startswith_inv _ _ H) as [rest E].
  exists (rev rest). apply (f_equal (@rev char)) in E.
  now rewrite rev_involutive, rev_app_distr, rev_involutive in E.
Qed.

(** X21. The extension test is exact and case sensitive.  An entry is
    processed exactly when its name ends in the lower-case ".txt" or
    ".docx"; an entry named [<stem>.TXT] or [<stem>.DOCX] is passed over
    without a message, and [load_transcript] rejects such a path. *)
Theorem extension_test_is_exact :
  (forall filename,
      supported filename = true
      <-> exists stem, filename = stem ++ py ".txt" \/ filename = stem ++ py ".docx")
  /\ (forall env transcript_dir theme_prompt output_dir stem ext h,
        ext = py ".TXT" \/ ext = py ".DOCX" ->
        process_entry env transcript_dir theme_prompt output_dir (stem ++ ext) h = (Ok tt, h)
        /\ load_transcript env (stem ++ ext) h
           = (Raise (ValueError (py "Unsupported file format: " ++ stem ++ ext)), h)).
Proof.
  split.
  - intros filename. split.
    + unfold supported. intros H. apply orb_prop in H.
      destruct H as [H|H]; destruct (endswith_inv _ _ H) as [stem E]; eauto.
    + intros [stem [-> | ->]]; apply supported_ext; auto.
  - intros env transcript_dir theme_prompt output_dir stem ext h Hext.
    assert (E : endswith (stem ++ ext) (py ".txt") = false
                /\ endswith (stem ++ ext) (py ".docx") = false).
    { unfold endswith. destruct Hext as [-> | ->]; rewrite rev_app_distr; split; reflexivity. }
    destruct E as [E1 E2]. split.
    + apply process_entry_skipped. unfold supported. now rewrite E1, E2.
    + unfold load_transcript. now rewrite E1, E2.
Qed.

Lemma extension_test_is_exact_witness :
  let env := demo_env (Ok demo_codebook) [] [] None in
  process_entry env (py "transcripts") (py "- A: foo") (py "coded_output")
    (py "P01" ++ py ".TXT") [] = (Ok tt, [])
  /\ load_transcript env (py "P01" ++ py ".TXT") []
     = (Raise (ValueError (py "Unsupported file format: " ++ py "P01" ++ py ".TXT")), []).
Proof.
  intros env. apply (proj2 extension_test_is_exact). now left.
Defined.
